(** * LoRA adapter lifecycle of the ACE-Step handler

    A shallow embedding of [acestep/core/generation/handler/lora_manager.py]
    (class [LoraManagerMixin]) and the properties of its five operations:
    [load_lora], [unload_lora], [set_use_lora], [set_lora_scale] and
    [get_lora_status].

    Conventions of the embedding.
    - Python [str] values are byte strings, the UTF-8 encoding of the
      text; [strip()] removes the whitespace characters of Unicode in
      that encoding; paths follow [posixpath].
    - Python [float] is IEEE-754 binary64, taken from the standard
      library's [SpecFloat] with precision 53 and maximal exponent 1024.
    - The session object ([self]) is a record that every operation
      threads through a state-and-exception monad; an exception keeps
      the mutations performed before it was raised.
    - The filesystem, the import system, [copy.deepcopy], the PEFT
      library and the torch module methods are outside the repository:
      they are the fields of a [Runtime] record, and each call to one of
      them on the filesystem, the import system or the decoder object is
      appended to a call log.
    - [logger] calls only write to the logging sink and are left out. *)

From Stdlib Require Import String Ascii List ZArith Bool Lia.
From Stdlib Require Import SpecFloat DecimalString.
Import ListNotations.

Open Scope string_scope.

(** ** Python strings *)

Module PyStr.

(** [needle in hay] on [str]. *)
Fixpoint contains (needle hay : string) : bool :=
  String.prefix needle hay ||
  match hay with
  | EmptyString => false
  | String _ rest => contains needle rest
  end.

(** The string made of the given bytes. *)
Definition bytes (l : list nat) : string :=
  fold_right (fun n s => String (ascii_of_nat n) s) EmptyString l.

(** The characters of [str.isspace()], each in its UTF-8 encoding:
    U+0009 to U+000D, U+001C to U+001F, U+0020, U+0085, U+00A0,
    U+1680, U+2000 to U+200A, U+2028, U+2029, U+202F, U+205F, U+3000. *)
Definition whitespace : list string :=
  (map (fun n => bytes [n]) [9; 10; 11; 12; 13; 28; 29; 30; 31; 32]
   ++ [bytes [194; 133]; bytes [194; 160]; bytes [225; 154; 128]]
   ++ map (fun n => bytes [226; 128; n])
        [128; 129; 130; 131; 132; 133; 134; 135; 136; 137; 138]
   ++ [bytes [226; 128; 168]; bytes [226; 128; 169]; bytes [226; 128; 175];
       bytes [226; 129; 159]; bytes [227; 128; 128]])%list.

(** The same characters, recognised on the bytes of one encoding of
    one, two or three bytes. *)
Definition isspace1 (c : ascii) : bool :=
  let n := nat_of_ascii c in
  (((9 <=? n) && (n <=? 13)) || ((28 <=? n) && (n <=? 32)))%nat.

Definition isspace2 (c d : ascii) : bool :=
  let n := nat_of_ascii c in
  let m := nat_of_ascii d in
  ((n =? 194) && ((m =? 133) || (m =? 160)))%nat.

Definition isspace3 (c d e : ascii) : bool :=
  let n := nat_of_ascii c in
  let m := nat_of_ascii d in
  let k := nat_of_ascii e in
  (((n =? 225) && (m =? 154) && (k =? 128))
   || ((n =? 226) && (m =? 128)
       && (((128 <=? k) && (k <=? 138))
           || (k =? 168) || (k =? 169) || (k =? 175)))
   || ((n =? 226) && (m =? 129) && (k =? 159))
   || ((n =? 227) && (m =? 128) && (k =? 128)))%nat.

(** [t.isspace()] for one encoded character [t]. *)
Definition isspace (t : string) : bool :=
  match t with
  | String c EmptyString => isspace1 c
  | String c (String d EmptyString) => isspace2 c d
  | String c (String d (String e EmptyString)) => isspace3 c d e
  | _ => false
  end.

(** [s.lstrip()]: whitespace characters are removed from the left, one
    encoding at a time. *)
Fixpoint lstrip (s : string) : string :=
  match s with
  | EmptyString => EmptyString
  | String c r1 =>
      if isspace1 c then lstrip r1
      else
        match r1 with
        | EmptyString => s
        | String d r2 =>
            if isspace2 c d then lstrip r2
            else
              match r2 with
              | EmptyString => s
              | String e r3 => if isspace3 c d e then lstrip r3 else s
              end
        end
  end.

(** [s.rstrip()]: the rest is stripped first; a byte is dropped when,
    with what is kept of the rest, it makes up one whitespace
    character, which then was the end of the string. *)
Fixpoint rstrip (s : string) : string :=
  match s with
  | EmptyString => EmptyString
  | String c rest =>
      if isspace (String c (rstrip rest)) then EmptyString
      else String c (rstrip rest)
  end.

(** [s.strip()] *)
Definition strip (s : string) : string := rstrip (lstrip s).

Definition lower_char (c : ascii) : ascii :=
  let n := nat_of_ascii c in
  if ((65 <=? n) && (n <=? 90))%nat then ascii_of_nat (n + 32) else c.

(** [s.lower()] *)
Fixpoint lower (s : string) : string :=
  match s with
  | EmptyString => EmptyString
  | String c rest => String (lower_char c) (lower rest)
  end.

Fixpoint endswith_char (s : string) (c : ascii) : bool :=
  match s with
  | EmptyString => false
  | String a EmptyString => Ascii.eqb a c
  | String _ rest => endswith_char rest c
  end.

(** [os.path.join(a, b)] of [posixpath], two components. *)
Definition os_path_join (a b : string) : string :=
  if String.prefix "/" b then b
  else if (a =? "") || endswith_char a "/" then a ++ b
  else a ++ "/" ++ b.

End PyStr.

(** ** Python floats *)

Module PyFloat.

Definition float := spec_float.

Definition prec : Z := 53.
Definition emax : Z := 1024.

Definition zero : float := S754_zero false.                         (* 0.0 *)
Definition one : float := S754_finite false 4503599627370496 (-52). (* 1.0 *)
Definition half : float := S754_finite false 4503599627370496 (-53). (* 0.5 *)
Definition four_fifths : float :=                                   (* 0.8 *)
  S754_finite false 7205759403792794 (-53).

Definition mul (a b : float) : float := SFmul prec emax a b.

(** [a < b], [a > b], [a == b], [a != b], [a <= b] on floats. *)
Definition lt (a b : float) : bool := SFltb a b.
Definition gt (a b : float) : bool :=
  match SFcompare a b with Some Gt => true | _ => false end.
Definition eq (a b : float) : bool := SFeqb a b.
Definition ne (a b : float) : bool := negb (SFeqb a b).
Definition le (a b : float) : bool := SFleb a b.

(** The built-ins [min(a, b)] and [max(a, b)]: the first argument is
    kept unless the second compares strictly below (above) it. *)
Definition py_min (a b : float) : float := if lt b a then b else a.
Definition py_max (a b : float) : float := if gt b a then b else a.

Definition is_nan (x : float) : bool :=
  match x with S754_nan => true | _ => false end.

(** *** [format(x, ".2f")] *)

Definition round_half_even_div (a b : Z) : Z :=
  let q := (a / b)%Z in
  match (2 * (a mod b) ?= b)%Z with
  | Lt => q
  | Gt => (q + 1)%Z
  | Eq => if Z.even q then q else (q + 1)%Z
  end.

(** The magnitude [m * 2^e] in hundredths, correctly rounded. *)
Definition hundredths (m : positive) (e : Z) : Z :=
  match e with
  | Zneg p => round_half_even_div (Zpos m * 100) (2 ^ Zpos p)
  | _ => (Zpos m * 100 * 2 ^ e)%Z
  end.

Definition decimal (n : Z) : string :=
  NilEmpty.string_of_uint (N.to_uint (Z.to_N n)).

Definition two_digits (n : Z) : string :=
  if (n <? 10)%Z then "0" ++ decimal n else decimal n.

Definition sign (s : bool) : string := if s then "-" else "".

Definition format_2f (x : float) : string :=
  match x with
  | S754_nan => "nan"
  | S754_infinity s => sign s ++ "inf"
  | S754_zero s => sign s ++ "0.00"
  | S754_finite s m e =>
      let n := hundredths m e in
      sign s ++ decimal (n / 100) ++ "." ++ two_digits (n mod 100)
  end.

End PyFloat.

Import PyFloat.

(** ** Exceptions and outcomes *)

Record exn := Exn { exn_class : string; exn_msg : string }.

Inductive outcome (A : Type) : Type :=
| Ok (a : A)
| Raise (e : exn).

Arguments Ok {A} a.
Arguments Raise {A} e.

Definition succeeded {A} (r : outcome A) : bool :=
  match r with Ok _ => true | Raise _ => false end.

(** ** Data model *)

(** Numbers found in a scaling attribute: [float] or [int]. *)
Inductive num :=
| NFloat (f : float)
| NInt (z : Z).

(** A [dict] keyed by adapter name, in insertion order. *)
Definition dict := list (string * num).

(** The value of a module's [scaling] (or [_original_scaling])
    attribute, by the [isinstance] tests the code makes on it. *)
Inductive scaling_val :=
| SDict (d : dict)
| SNum (n : num)
| SOther.

(** A submodule of the decoder, as far as [set_lora_scale] looks at it.
    Each module owns its [scaling] dict, as PEFT's layers do, and
    [_original_scaling] is a copy, so a module is a value. *)
Record Module := {
  scaling : option scaling_val;            (* None: no such attribute *)
  _original_scaling : option scaling_val;
  class_module : string;                   (* __class__.__module__ *)
  class_name : string;                     (* __class__.__name__ *)
  has_set_scale : bool;
  has_scale_layer : bool
}.

(** Elements of a list, tuple or set, or keys of a dict, by
    [isinstance(_, str)]. *)
Inductive item :=
| IStr (s : string)
| IOther.

Inductive pyobj :=
| PStr (s : string)
| PSeq (items : list item)     (* list, tuple or set, in iteration order *)
| PDict (keys : list item)
| POther.

(** An attribute that may be [callable]; a callable is given by what
    calling it with no argument produces. *)
Inductive attribute :=
| Plain (v : pyobj)
| Callable (result : outcome pyobj).

Record Decoder := {
  named_modules : list (string * Module);
  has_disable_adapter_layers : bool;
  active_adapters : option attribute;
  peft_config : option pyobj;
  weights : string                 (* stands for the rest of the network *)
}.

Record Model := { decoder : Decoder }.

(** The fields of the handler the mixin reads and writes. *)
Record Session := {
  model : option Model;
  quantization : option string;
  device : string;
  dtype : string;
  _base_decoder : option Decoder;
  lora_loaded : bool;
  use_lora : bool;
  lora_scale : float
}.

(** What [from peft import PeftModel, PeftConfig] does: it succeeds,
    raises [ImportError] (or a subclass, as when the package is not
    installed), or raises an exception of another class. *)
Inductive import_result :=
| Imported
| NotImportable
| ImportRaised (e : exn).

(** What lies outside the repository. The methods that work in place
    return the receiver as they leave it, also when they raise. An
    exception is an instance of [Exception]: an interrupt or an exit
    of the interpreter ends the run and is not an outcome here. *)
Record Runtime := {
  os_path_exists : string -> bool;
  import_peft : import_result;
  copy_deepcopy : Decoder -> outcome Decoder;
  PeftModel_from_pretrained : Decoder -> string -> Decoder * outcome Decoder;
  decoder_to : Decoder -> string -> Decoder * outcome unit;
  decoder_eval : Decoder -> Decoder * outcome unit;
  enable_adapter_layers : Decoder -> Decoder * outcome unit;
  disable_adapter_layers : Decoder -> Decoder * outcome unit;
  module_set_scale : Module -> string -> float -> Module * outcome unit;
  module_scale_layer : Module -> float -> Module * outcome unit
}.

(** Calls that leave the repository. *)
Inductive event :=
| call_os_path_exists (path : string)
| call_import_peft
| call_deepcopy
| call_from_pretrained (path : string)
| call_to (target : string)
| call_eval
| call_hasattr (name : string)
| call_enable_adapter_layers
| call_disable_adapter_layers
| call_named_modules
| call_active_adapters.

Record World := { self : Session; calls : list event }.

(** *** Field updates *)

Definition set_decoder (d : Decoder) (s : Session) : Session :=
  {| model := match model s with
              | Some _ => Some {| decoder := d |}
              | None => None
              end;
     quantization := quantization s; device := device s; dtype := dtype s;
     _base_decoder := _base_decoder s; lora_loaded := lora_loaded s;
     use_lora := use_lora s; lora_scale := lora_scale s |}.

Definition set_base_decoder (d : Decoder) (s : Session) : Session :=
  {| model := model s; quantization := quantization s; device := device s;
     dtype := dtype s; _base_decoder := Some d; lora_loaded := lora_loaded s;
     use_lora := use_lora s; lora_scale := lora_scale s |}.

Definition set_lora_loaded (b : bool) (s : Session) : Session :=
  {| model := model s; quantization := quantization s; device := device s;
     dtype := dtype s; _base_decoder := _base_decoder s; lora_loaded := b;
     use_lora := use_lora s; lora_scale := lora_scale s |}.

Definition set_use_lora_field (b : bool) (s : Session) : Session :=
  {| model := model s; quantization := quantization s; device := device s;
     dtype := dtype s; _base_decoder := _base_decoder s;
     lora_loaded := lora_loaded s; use_lora := b; lora_scale := lora_scale s |}.

Definition set_lora_scale_field (x : float) (s : Session) : Session :=
  {| model := model s; quantization := quantization s; device := device s;
     dtype := dtype s; _base_decoder := _base_decoder s;
     lora_loaded := lora_loaded s; use_lora := use_lora s; lora_scale := x |}.

Definition set_modules (ms : list (string * Module)) (d : Decoder) : Decoder :=
  {| named_modules := ms;
     has_disable_adapter_layers := has_disable_adapter_layers d;
     active_adapters := active_adapters d; peft_config := peft_config d;
     weights := weights d |}.

Definition set_scaling (v : scaling_val) (m : Module) : Module :=
  {| scaling := Some v; _original_scaling := _original_scaling m;
     class_module := class_module m; class_name := class_name m;
     has_set_scale := has_set_scale m; has_scale_layer := has_scale_layer m |}.

Definition set_original_scaling (v : scaling_val) (m : Module) : Module :=
  {| scaling := scaling m; _original_scaling := Some v;
     class_module := class_module m; class_name := class_name m;
     has_set_scale := has_set_scale m; has_scale_layer := has_scale_layer m |}.

(** ** The state-and-exception monad *)

Definition M (A : Type) : Type := World -> outcome A * World.

Definition ret {A} (a : A) : M A := fun w => (Ok a, w).

Definition raise {A} (e : exn) : M A := fun w => (Raise e, w).

Definition bind {A B} (c : M A) (k : A -> M B) : M B :=
  fun w =>
    match c w with
    | (Ok a, w') => k a w'
    | (Raise e, w') => (Raise e, w')
    end.

Notation "x <- c ;; k" := (bind c (fun x => k))
  (at level 61, c at next level, right associativity).
Notation "c ;;; k" := (bind c (fun _ => k))
  (at level 61, right associativity).

(** [try: body  except Exception as e: handler e] *)
Definition try_except {A} (body : M A) (handler : exn -> M A) : M A :=
  fun w =>
    match body w with
    | (Ok a, w') => (Ok a, w')
    | (Raise e, w') => handler e w'
    end.

Definition lift {A} (r : outcome A) : M A := fun w => (r, w).

Definition get_self : M Session := fun w => (Ok (self w), w).

Definition modify_self (f : Session -> Session) : M unit :=
  fun w => (Ok tt, {| self := f (self w); calls := calls w |}).

Definition log (ev : event) : M unit :=
  fun w => (Ok tt, {| self := self w; calls := calls w ++ [ev] |}).

Definition AttributeError_decoder : exn :=
  Exn "AttributeError" "'NoneType' object has no attribute 'decoder'".

(** Reading [self.model.decoder]. *)
Definition get_decoder : M Decoder :=
  s <- get_self ;;
  match model s with
  | Some m => ret (decoder m)
  | None => raise AttributeError_decoder
  end.

(** [self.model.decoder = d] *)
Definition assign_decoder (d : Decoder) : M unit :=
  s <- get_self ;;
  match model s with
  | Some _ => modify_self (set_decoder d)
  | None => raise AttributeError_decoder
  end.

(** A method of [self.model.decoder] that works in place. *)
Definition decoder_method {A} (ev : event) (f : Decoder -> Decoder * outcome A)
  : M A :=
  d <- get_decoder ;;
  log ev ;;;
  modify_self (set_decoder (fst (f d))) ;;;
  lift (snd (f d)).

(** ** Scaling arithmetic *)

Definition OverflowError : exn :=
  Exn "OverflowError" "int too large to convert to float".

Definition TypeError (msg : string) : exn := Exn "TypeError" msg.

Definition KeyError (key : string) : exn := Exn "KeyError" key.

Definition int_to_float (z : Z) : outcome float :=
  match binary_normalize prec emax z 0 false with
  | S754_infinity _ => Raise OverflowError
  | f => Ok f
  end.

(** [n * x] for a number [n] and a float [x]; the product is a float. *)
Definition num_mul (n : num) (x : float) : outcome float :=
  match n with
  | NFloat a => Ok (mul a x)
  | NInt z =>
      match int_to_float z with
      | Ok a => Ok (mul a x)
      | Raise e => Raise e
      end
  end.

(** [v * x] for an attribute value [v]; a dict, like any object that
    is not a number, is taken not to implement the product. *)
Definition val_mul (v : scaling_val) (x : float) : outcome float :=
  match v with
  | SNum n => num_mul n x
  | _ => Raise (TypeError "unsupported operand type(s) for *")
  end.

Fixpoint dict_get (k : string) (d : dict) : option num :=
  match d with
  | [] => None
  | (k', v) :: rest => if k' =? k then Some v else dict_get k rest
  end.

(** [d[k] = v]: the key keeps its place, a new key goes last. *)
Fixpoint dict_set (k : string) (v : num) (d : dict) : dict :=
  match d with
  | [] => [(k, v)]
  | (k', v') :: rest =>
      if k' =? k then (k', v) :: rest else (k', v') :: dict_set k v rest
  end.

(** [v[k]] for an attribute value [v]; only a dict is subscriptable. *)
Definition val_getitem (v : scaling_val) (k : string) : outcome num :=
  match v with
  | SDict d =>
      match dict_get k d with
      | Some n => Ok n
      | None => Raise (KeyError k)
      end
  | _ => Raise (TypeError "object is not subscriptable")
  end.

(** ** [set_lora_scale]: the direct attribute path *)

(** [for adapter_name in scaling:
       module.scaling[adapter_name] =
         module._original_scaling[adapter_name] * self.lora_scale]
    over the keys still to visit; [live] is the dict [module.scaling]. *)
Fixpoint rescale_dict (original : scaling_val) (x : float)
    (keys : list string) (live : dict) : dict * outcome unit :=
  match keys with
  | [] => (live, Ok tt)
  | adapter_name :: rest =>
      match val_getitem original adapter_name with
      | Raise e => (live, Raise e)
      | Ok n =>
          match num_mul n x with
          | Raise e => (live, Raise e)
          | Ok f => rescale_dict original x rest
                      (dict_set adapter_name (NFloat f) live)
          end
      end
  end.

(** [if not hasattr(module, "_original_scaling"):
       module._original_scaling = v] *)
Definition capture_original (v : scaling_val) (m : Module) : Module :=
  match _original_scaling m with
  | Some _ => m
  | None => set_original_scaling v m
  end.

Definition original_of (m : Module) : scaling_val :=
  match _original_scaling m with
  | Some o => o
  | None => SOther
  end.

(** The body of the first loop for one [(name, module)]; the boolean
    tells whether [modified_count] is incremented. *)
Definition scale_module_direct (x : float) (name : string) (m : Module)
  : Module * outcome bool :=
  if PyStr.contains "lora_" name then
    match scaling m with
    | Some (SDict d) =>
        let m1 := capture_original (SDict d) m in
        match rescale_dict (original_of m1) x (map fst d) d with
        | (d', Ok _) => (set_scaling (SDict d') m1, Ok true)
        | (d', Raise e) => (set_scaling (SDict d') m1, Raise e)
        end
    | Some (SNum n) =>
        let m1 := capture_original (SNum n) m in
        match val_mul (original_of m1) x with
        | Ok f => (set_scaling (SNum (NFloat f)) m1, Ok true)
        | Raise e => (m1, Raise e)
        end
    | _ => (m, Ok false)
    end
  else (m, Ok false).

(** The first loop over [named_modules()], from a given
    [modified_count]; modules after a raising one are not visited. *)
Fixpoint scale_modules_direct (x : float) (mods : list (string * Module))
    (modified_count : nat) : list (string * Module) * outcome nat :=
  match mods with
  | [] => ([], Ok modified_count)
  | (name, m) :: rest =>
      match scale_module_direct x name m with
      | (m', Ok touched) =>
          let (rest', r) :=
            scale_modules_direct x rest
              (if touched then S modified_count else modified_count) in
          ((name, m') :: rest', r)
      | (m', Raise e) => ((name, m') :: rest, Raise e)
      end
  end.

(** ** [set_lora_scale]: the method fallback *)

Definition strings_of (items : list item) : list string :=
  flat_map (fun i => match i with IStr s => [s] | IOther => [] end) items.

Definition is_empty {A} (l : list A) : bool :=
  match l with [] => true | _ => false end.

(** The discovery of [active_adapters]. *)
Definition discover_active_adapters : M (list string) :=
  d <- get_decoder ;;
  log (call_hasattr "active_adapters") ;;;
  found <-
    match active_adapters d with
    | None => ret []
    | Some attr =>
        adapters <-
          match attr with
          | Plain v => ret v
          | Callable result => log call_active_adapters ;;; lift result
          end ;;
        match adapters with
        | PStr s => ret [s]
        | PSeq items => ret (strings_of items)
        | _ => ret []
        end
    end ;;
  if is_empty found then
    d <- get_decoder ;;
    log (call_hasattr "peft_config") ;;;
    match peft_config d with
    | Some (PDict keys) => ret (strings_of keys)
    | _ => ret found
    end
  else ret found.

Definition is_probably_lora_layer (m : Module) : bool :=
  let module_name := PyStr.lower (class_module m) in
  let class_name := PyStr.lower (class_name m) in
  (PyStr.contains "peft" module_name && PyStr.contains "lora" module_name)
  || PyStr.contains "lora" class_name.

(** [for adapter_name in active_adapters:
       try: module.set_scale(adapter_name, self.lora_scale);
            module_modified = True
       except Exception: continue] *)
Fixpoint set_scale_each (rt : Runtime) (x : float) (adapters : list string)
    (m : Module) (module_modified : bool) : Module * bool :=
  match adapters with
  | [] => (m, module_modified)
  | adapter_name :: rest =>
      let (m', r) := module_set_scale rt m adapter_name x in
      set_scale_each rt x rest m' (module_modified || succeeded r)
  end.

(** The body of the second loop for one module. *)
Definition scale_module_fallback (rt : Runtime) (x : float)
    (adapters : list string) (m : Module) : Module * bool :=
  if negb (is_probably_lora_layer m) then (m, false)
  else if has_set_scale m && negb (is_empty adapters) then
    set_scale_each rt x adapters m false
  else if has_scale_layer m then
    let (m', r) := module_scale_layer rt m x in (m', succeeded r)
  else (m, false).

Fixpoint scale_modules_fallback (rt : Runtime) (x : float)
    (adapters : list string) (mods : list (string * Module))
    (modified_count : nat) : list (string * Module) * nat :=
  match mods with
  | [] => ([], modified_count)
  | (name, m) :: rest =>
      let (m', module_modified) := scale_module_fallback rt x adapters m in
      let (rest', n) :=
        scale_modules_fallback rt x adapters rest
          (if module_modified then S modified_count else modified_count) in
      ((name, m') :: rest', n)
  end.

(** A loop over [self.model.decoder.named_modules()] that mutates the
    modules it visits. *)
Definition for_named_modules {A}
    (loop : list (string * Module) -> list (string * Module) * outcome A)
  : M A :=
  d <- get_decoder ;;
  log call_named_modules ;;;
  modify_self (set_decoder (set_modules (fst (loop (named_modules d))) d)) ;;;
  lift (snd (loop (named_modules d))).

(** ** The operations of [LoraManagerMixin] *)

Module Msg.

Definition model_not_initialized : string :=
  "❌ Model not initialized. Please initialize service first.".

Definition quantized (q : string) : string :=
  "❌ LoRA loading is not supported on quantized models. "
  ++ "Current quantization: " ++ q ++ ". "
  ++ "Please re-initialize the service with quantization disabled, then try loading the LoRA adapter again.".

Definition no_path : string := "❌ Please provide a LoRA path.".

Definition path_not_found (lora_path : string) : string :=
  "❌ LoRA path not found: " ++ lora_path.

Definition invalid_adapter (lora_path : string) : string :=
  "❌ Invalid LoRA adapter: adapter_config.json not found in " ++ lora_path.

Definition peft_missing : string :=
  "❌ PEFT library not installed. Please install with: pip install peft".

Definition loaded_from (lora_path : string) : string :=
  "✅ LoRA loaded from " ++ lora_path.

Definition load_failed (e : exn) : string :=
  "❌ Failed to load LoRA: " ++ exn_msg e.

Definition nothing_to_unload : string := "⚠️ No LoRA adapter loaded.".

Definition no_backup : string :=
  "❌ Base decoder backup not found. Cannot restore.".

Definition unloaded : string := "✅ LoRA unloaded, using base model".

Definition unload_failed (e : exn) : string :=
  "❌ Failed to unload LoRA: " ++ exn_msg e.

Definition nothing_to_enable : string :=
  "❌ No LoRA adapter loaded. Please load a LoRA first.".

Definition toggled (use_lora : bool) : string :=
  "✅ LoRA " ++ (if use_lora then "enabled" else "disabled").

Definition no_lora : string := "⚠️ No LoRA loaded".

Definition scale_while_disabled (x : float) : string :=
  "✅ LoRA scale: " ++ format_2f x ++ " (LoRA disabled)".

Definition scale_applied (x : float) : string :=
  "✅ LoRA scale: " ++ format_2f x.

Definition scale_no_modules (x : float) : string :=
  "⚠️ Scale set to " ++ format_2f x ++ " (no modules found)".

Definition scale_partial (x : float) : string :=
  "⚠️ Scale set to " ++ format_2f x ++ " (partial)".

End Msg.

Definition load_lora (rt : Runtime) (lora_path : string) : M string :=
  s <- get_self ;;
  match model s with
  | None => ret Msg.model_not_initialized
  | Some _ =>
  match quantization s with
  | Some q => ret (Msg.quantized q)
  | None =>
  if (lora_path =? "") || (PyStr.strip lora_path =? "") then ret Msg.no_path
  else
  let lora_path := PyStr.strip lora_path in
  log (call_os_path_exists lora_path) ;;;
  if negb (os_path_exists rt lora_path) then
    ret (Msg.path_not_found lora_path)
  else
  let config_file := PyStr.os_path_join lora_path "adapter_config.json" in
  log (call_os_path_exists config_file) ;;;
  if negb (os_path_exists rt config_file) then
    ret (Msg.invalid_adapter lora_path)
  else
  log call_import_peft ;;;
  match import_peft rt with
  | NotImportable => ret Msg.peft_missing
  | ImportRaised e => raise e
  | Imported =>
  try_except
    (s <- get_self ;;
     match _base_decoder s with
     | None =>
         d <- get_decoder ;;
         log call_deepcopy ;;;
         backup <- lift (copy_deepcopy rt d) ;;
         modify_self (set_base_decoder backup)
     | Some base =>
         log call_deepcopy ;;;
         restored <- lift (copy_deepcopy rt base) ;;
         assign_decoder restored
     end ;;;
     wrapped <- decoder_method (call_from_pretrained lora_path)
                  (fun d => PeftModel_from_pretrained rt d lora_path) ;;
     assign_decoder wrapped ;;;
     s <- get_self ;;
     decoder_method (call_to (device s)) (fun d => decoder_to rt d (device s)) ;;;
     decoder_method (call_to (dtype s)) (fun d => decoder_to rt d (dtype s)) ;;;
     decoder_method call_eval (decoder_eval rt) ;;;
     modify_self (set_lora_loaded true) ;;;
     modify_self (set_use_lora_field true) ;;;
     ret (Msg.loaded_from lora_path))
    (fun e => ret (Msg.load_failed e))
  end
  end
  end.

Definition unload_lora (rt : Runtime) : M string :=
  s <- get_self ;;
  if negb (lora_loaded s) then ret Msg.nothing_to_unload
  else
  match _base_decoder s with
  | None => ret Msg.no_backup
  | Some base =>
  try_except
    (log call_deepcopy ;;;
     restored <- lift (copy_deepcopy rt base) ;;
     assign_decoder restored ;;;
     s <- get_self ;;
     decoder_method (call_to (device s)) (fun d => decoder_to rt d (device s)) ;;;
     decoder_method (call_to (dtype s)) (fun d => decoder_to rt d (dtype s)) ;;;
     decoder_method call_eval (decoder_eval rt) ;;;
     modify_self (set_lora_loaded false) ;;;
     modify_self (set_use_lora_field false) ;;;
     modify_self (set_lora_scale_field one) ;;;
     ret Msg.unloaded)
    (fun e => ret (Msg.unload_failed e))
  end.

(** [max(0.0, min(1.0, scale))] *)
Definition clamp_scale (scale : float) : float :=
  py_max zero (py_min one scale).

Definition set_lora_scale (rt : Runtime) (scale : float) : M string :=
  s <- get_self ;;
  if negb (lora_loaded s) then ret Msg.no_lora
  else
  modify_self (set_lora_scale_field (clamp_scale scale)) ;;;
  s <- get_self ;;
  if negb (use_lora s) then ret (Msg.scale_while_disabled (lora_scale s))
  else
  try_except
    (modified_count <-
       for_named_modules
         (fun mods => scale_modules_direct (lora_scale s) mods 0) ;;
     modified_count <-
       (if (modified_count =? 0)%nat then
          active_adapters <- discover_active_adapters ;;
          for_named_modules
            (fun mods =>
               let (mods', n) :=
                 scale_modules_fallback rt (lora_scale s) active_adapters
                   mods modified_count in
               (mods', Ok n))
        else ret modified_count) ;;
     if (0 <? modified_count)%nat then ret (Msg.scale_applied (lora_scale s))
     else ret (Msg.scale_no_modules (lora_scale s)))
    (fun e =>
       s <- get_self ;;
       ret (Msg.scale_partial (lora_scale s))).

Definition set_use_lora (rt : Runtime) (use_lora : bool) : M string :=
  s <- get_self ;;
  if use_lora && negb (lora_loaded s) then ret Msg.nothing_to_enable
  else
  modify_self (set_use_lora_field use_lora) ;;;
  s <- get_self ;;
  capable <-
    (if lora_loaded s then
       d <- get_decoder ;;
       log (call_hasattr "disable_adapter_layers") ;;;
       ret (has_disable_adapter_layers d)
     else ret false) ;;
  (if capable then
     try_except
       (if use_lora then
          decoder_method call_enable_adapter_layers
            (enable_adapter_layers rt) ;;;
          s <- get_self ;;
          if ne (lora_scale s) one then
            set_lora_scale rt (lora_scale s) ;;; ret tt
          else ret tt
        else
          decoder_method call_disable_adapter_layers
            (disable_adapter_layers rt))
       (fun e => ret tt)
   else ret tt) ;;;
  ret (Msg.toggled use_lora).

Record Status := { loaded : bool; active : bool; scale : float }.

Definition get_lora_status : M Status :=
  s <- get_self ;;
  ret {| loaded := lora_loaded s; active := use_lora s;
         scale := lora_scale s |}.

(** ** Sequences of operations *)

Inductive operation :=
| Load (lora_path : string)
| Unload
| SetEnabled (use_lora : bool)
| SetScale (scale : float)
| GetStatus.

(** The session and call log an operation leaves behind, whether it
    returned or raised. *)
Definition perform (rt : Runtime) (o : operation) (w : World) : World :=
  match o with
  | Load lora_path => snd (load_lora rt lora_path w)
  | Unload => snd (unload_lora rt w)
  | SetEnabled use_lora => snd (set_use_lora rt use_lora w)
  | SetScale scale => snd (set_lora_scale rt scale w)
  | GetStatus => snd (get_lora_status w)
  end.

(** The worlds after each operation of a sequence; the runtime may
    differ from one call to the next. *)
Fixpoint states_after (ops : list (Runtime * operation)) (w : World)
  : list World :=
  match ops with
  | [] => []
  | (rt, o) :: rest => perform rt o w :: states_after rest (perform rt o w)
  end.

(** ** Predicates of the specification *)

(** The glyph a status string starts with. *)
Definition reports_success (msg : string) : bool := String.prefix "✅" msg.
Definition reports_failure (msg : string) : bool := String.prefix "❌" msg.
Definition reports_warning (msg : string) : bool := String.prefix "⚠️" msg.

(** [adapterEnabled => adapterLoaded] *)
Definition enabled_implies_loaded (s : Session) : Prop :=
  use_lora s = true -> lora_loaded s = true.

(** [0.0 <= x <= 1.0] *)
Definition in_unit_range (x : float) : bool := le zero x && le x one.

(** The clamp of the specification: [x] brought into [[lo, hi]]. *)
Definition clamp (x lo hi : float) : float :=
  if lt x lo then lo else if lt hi x then hi else x.

(** An adapter is only ever loaded onto an initialized model. *)
Definition loaded_on_model (s : Session) : Prop :=
  lora_loaded s = true -> model s <> None.

Definition status_of (w : World) : outcome Status := fst (get_lora_status w).

(** The world after the filesystem was asked about some paths and
    nothing else happened. *)
Definition after_probes (w : World) (paths : list string) : World :=
  {| self := self w; calls := calls w ++ map call_os_path_exists paths |}.

(** What [get_lora_status] shows once an adapter was unloaded. *)
Definition unloaded_status : Status :=
  {| loaded := false; active := false; scale := one |}.

(** The submodules of [self.model.decoder], as [named_modules()] lists
    them. *)
Definition modules_of (w : World) : list (string * Module) :=
  match model (self w) with
  | Some m => named_modules (decoder m)
  | None => []
  end.

(** The original (pre-scaling) value of a module: the one captured at
    its first touch or, before any touch, the scaling it has now. *)
Definition captured (m : Module) : option scaling_val :=
  match _original_scaling m with
  | Some o => Some o
  | None => scaling m
  end.

(** The scaling attributes the direct path rewrites: dicts and numbers. *)
Definition scalable (v : scaling_val) : bool :=
  match v with
  | SDict _ | SNum _ => true
  | SOther => false
  end.

(** A rewritten scaling keeps its kind and, for a dict, its keys. *)
Definition same_shape (before after : scaling_val) : Prop :=
  match before, after with
  | SNum _, SNum _ => True
  | SDict d, SDict d' => map fst d' = map fst d
  | _, _ => False
  end.

(** [live] is [original * x]: the product itself for a number, the
    product under every key for a dict. *)
Definition scaled_by (original : scaling_val) (x : float)
    (live : scaling_val) : Prop :=
  match live with
  | SNum (NFloat f) => val_mul original x = Ok f
  | SDict d =>
      forall k, In k (map fst d) ->
        exists n f,
          val_getitem original k = Ok n /\ num_mul n x = Ok f /\
          dict_get k d = Some (NFloat f)
  | _ => False
  end.

(** Placement and evaluation mode, as [load_lora] and [unload_lora]
    apply them to a decoder when no call raises. *)
Definition placed (rt : Runtime) (s : Session) (d : Decoder) : Decoder :=
  fst (decoder_eval rt
         (fst (decoder_to rt (fst (decoder_to rt d (device s))) (dtype s)))).

(** A byte that starts a character: not a continuation byte of UTF-8. *)
Definition starts_character (c : ascii) : bool :=
  ((nat_of_ascii c <? 128) || (192 <=? nat_of_ascii c))%nat.

Definition at_character (s : string) : bool :=
  match s with
  | EmptyString => true
  | String c _ => starts_character c
  end.

(** Every status string starts with one of the three marker glyphs. *)
Definition has_glyph (msg : string) : bool :=
  reports_success msg || reports_failure msg || reports_warning msg.

(** [baseDecoderSnapshot] is set whenever an adapter is loaded. *)
Definition snapshot_when_loaded (s : Session) : Prop :=
  lora_loaded s = true -> _base_decoder s <> None.

(** What no operation changes: the configuration of the session,
    whether there is a model, and a snapshot once it exists. *)
Definition same_configuration (s s' : Session) : Prop :=
  quantization s' = quantization s /\
  device s' = device s /\
  dtype s' = dtype s /\
  (model s' = None <-> model s = None) /\
  (forall b, _base_decoder s = Some b -> _base_decoder s' = Some b).

(** The modules the first loop rewrites. *)
Definition direct_target (name : string) (m : Module) : bool :=
  PyStr.contains "lora_" name &&
  match scaling m with
  | Some v => scalable v
  | None => false
  end.

(** The calls of the library phase of [load_lora], in order. *)
Definition load_calls (s : Session) (path : string) : list event :=
  [call_os_path_exists path;
   call_os_path_exists (PyStr.os_path_join path "adapter_config.json");
   call_import_peft; call_deepcopy; call_from_pretrained path;
   call_to (device s); call_to (dtype s); call_eval].

(** ** A sample session

    A decoder with one attention block, the decoder PEFT makes of it
    (two adapter sublayers, one with a numeric and one with a
    per-adapter scaling), and runtimes in which the adapter directory
    [/loras/a] is valid. *)

Module Sample.

Definition two : float := S754_finite false 4503599627370496 (-51).

Definition linear (sc : option scaling_val) : Module :=
  {| scaling := sc; _original_scaling := None;
     class_module := "torch.nn.modules.linear"; class_name := "Linear";
     has_set_scale := false; has_scale_layer := false |}.

Definition base : Decoder :=
  {| named_modules := [("layers.0.attn", linear None)];
     has_disable_adapter_layers := false;
     active_adapters := None; peft_config := None; weights := "base" |}.

Definition adapted : Decoder :=
  {| named_modules :=
       [("base_model.model.layers.0.attn", linear None);
        ("base_model.model.layers.0.attn.lora_A",
         linear (Some (SNum (NFloat two))));
        ("base_model.model.layers.0.attn.lora_B",
         linear (Some (SDict [("default", NFloat two); ("style", NInt 3)])))];
     has_disable_adapter_layers := true;
     active_adapters := Some (Plain (PSeq [IStr "default"]));
     peft_config := Some (PDict [IStr "default"]);
     weights := "base+lora" |}.

Definition rt : Runtime :=
  {| os_path_exists := fun p =>
       (p =? "/loras") || (p =? "/loras/a")
       || (p =? "/loras/a/adapter_config.json");
     import_peft := Imported;
     copy_deepcopy := fun d => Ok d;
     PeftModel_from_pretrained := fun d _ => (d, Ok adapted);
     decoder_to := fun d _ => (d, Ok tt);
     decoder_eval := fun d => (d, Ok tt);
     enable_adapter_layers := fun d => (d, Ok tt);
     disable_adapter_layers := fun d => (d, Ok tt);
     module_set_scale := fun m _ _ => (m, Ok tt);
     module_scale_layer := fun m _ => (m, Ok tt) |}.

(** The same runtime when copying the decoder runs out of memory. *)
Definition rt_out_of_memory : Runtime :=
  {| os_path_exists := os_path_exists rt;
     import_peft := Imported;
     copy_deepcopy := fun _ => Raise (Exn "RuntimeError" "CUDA out of memory");
     PeftModel_from_pretrained := PeftModel_from_pretrained rt;
     decoder_to := decoder_to rt;
     decoder_eval := decoder_eval rt;
     enable_adapter_layers := enable_adapter_layers rt;
     disable_adapter_layers := disable_adapter_layers rt;
     module_set_scale := module_set_scale rt;
     module_scale_layer := module_scale_layer rt |}.

(** A freshly initialized session: nothing loaded. *)
Definition fresh : World :=
  {| self :=
       {| model := Some {| decoder := base |}; quantization := None;
          device := "cuda"; dtype := "bfloat16"; _base_decoder := None;
          lora_loaded := false; use_lora := false; lora_scale := one |};
     calls := [] |}.

Definition uninitialized : World :=
  {| self :=
       {| model := None; quantization := None;
          device := "cuda"; dtype := "bfloat16"; _base_decoder := None;
          lora_loaded := false; use_lora := false; lora_scale := one |};
     calls := [] |}.

Definition quantized : World :=
  {| self :=
       {| model := Some {| decoder := base |};
          quantization := Some "int8_weight_only";
          device := "cuda"; dtype := "bfloat16"; _base_decoder := None;
          lora_loaded := false; use_lora := false; lora_scale := one |};
     calls := [] |}.

(** The session after a successful [load_lora]. *)
Definition loaded : World :=
  {| self :=
       {| model := Some {| decoder := adapted |}; quantization := None;
          device := "cuda"; dtype := "bfloat16"; _base_decoder := Some base;
          lora_loaded := true; use_lora := true; lora_scale := one |};
     calls := [] |}.

(** The loaded session after [set_lora_scale(0.5)]. *)
Definition rescaled : World := snd (set_lora_scale rt half loaded).

(** ... and after [set_lora_scale(0.8)] on top of it. *)
Definition twice : World := snd (set_lora_scale rt four_fifths rescaled).

(** A run that meets a refused toggle, a load, a rescaling, a failed
    and a successful unload. *)
Definition run : list (Runtime * operation) :=
  [(rt, SetEnabled true); (rt, Load "/loras/a");
   (rt, SetScale half); (rt, SetEnabled false);
   (rt_out_of_memory, Unload); (rt, SetEnabled true);
   (rt, GetStatus); (rt, Unload)].

(** The sample runtime without PEFT installed. *)
Definition rt_no_peft : Runtime :=
  {| os_path_exists := os_path_exists rt;
     import_peft := NotImportable;
     copy_deepcopy := copy_deepcopy rt;
     PeftModel_from_pretrained := PeftModel_from_pretrained rt;
     decoder_to := decoder_to rt;
     decoder_eval := decoder_eval rt;
     enable_adapter_layers := enable_adapter_layers rt;
     disable_adapter_layers := disable_adapter_layers rt;
     module_set_scale := module_set_scale rt;
     module_scale_layer := module_scale_layer rt |}.

(** The sample runtime when importing PEFT fails for another reason
    than its absence. *)
Definition rt_broken_peft : Runtime :=
  {| os_path_exists := os_path_exists rt;
     import_peft :=
       ImportRaised
         (Exn "RuntimeError" "Failed to import peft: torch is broken");
     copy_deepcopy := copy_deepcopy rt;
     PeftModel_from_pretrained := PeftModel_from_pretrained rt;
     decoder_to := decoder_to rt;
     decoder_eval := decoder_eval rt;
     enable_adapter_layers := enable_adapter_layers rt;
     disable_adapter_layers := disable_adapter_layers rt;
     module_set_scale := module_set_scale rt;
     module_scale_layer := module_scale_layer rt |}.

(** The sample runtime when toggling the adapter layers raises. *)
Definition rt_no_toggle : Runtime :=
  {| os_path_exists := os_path_exists rt;
     import_peft := Imported;
     copy_deepcopy := copy_deepcopy rt;
     PeftModel_from_pretrained := PeftModel_from_pretrained rt;
     decoder_to := decoder_to rt;
     decoder_eval := decoder_eval rt;
     enable_adapter_layers := fun d =>
       (d, Raise (Exn "RuntimeError" "adapter layers are frozen"));
     disable_adapter_layers := fun d =>
       (d, Raise (Exn "RuntimeError" "adapter layers are frozen"));
     module_set_scale := module_set_scale rt;
     module_scale_layer := module_scale_layer rt |}.

(** The loaded session with the adapter switched off. *)
Definition disabled : World :=
  {| self := set_use_lora_field false (self loaded); calls := [] |}.

(** The loaded session after a second adapter, "late", was added to the
    per-adapter scaling of a module that had been rescaled before. *)
Definition grown : World :=
  {| self :=
       set_decoder
         {| named_modules :=
              [("base_model.model.layers.0.attn.lora_B",
                {| scaling :=
                     Some (SDict [("default", NFloat two);
                                  ("late", NFloat two)]);
                   _original_scaling :=
                     Some (SDict [("default", NFloat two)]);
                   class_module := "torch.nn.modules.linear";
                   class_name := "Linear";
                   has_set_scale := false; has_scale_layer := false |})];
            has_disable_adapter_layers := true;
            active_adapters := None; peft_config := None;
            weights := "base+lora" |}
         (self loaded);
     calls := [] |}.

(** A session marked loaded whose decoder has no adapter layer. *)
Definition bare : World :=
  {| self := set_decoder base (self loaded); calls := [] |}.

(** The rescaled session (modules at half their original scaling) after
    the adapter was disabled and the scale set back to 1.0. *)
Definition stale : World :=
  snd (set_lora_scale rt one
         (snd (set_use_lora rt false rescaled))).

End Sample.

(** ** Proof automation *)

Ltac unfold_monad :=
  unfold decoder_method, for_named_modules, assign_decoder, get_decoder,
    try_except, bind, ret, raise, lift, get_self, modify_self, log in *.

Ltac break_match :=
  match goal with
  | |- context [match ?x with _ => _ end] =>
      lazymatch x with
      | context [match _ with _ => _ end] => fail
      | _ => destruct x eqn:?
      end
  end.

Ltac simp :=
  cbn -[String.append PyStr.strip PyStr.os_path_join String.eqb
        clamp_scale format_2f scale_modules_direct scale_modules_fallback
        PyStr.contains String.prefix ne one in_unit_range] in *.

Ltac cases := repeat (break_match; simp).

(** Names the fields of a world, and the decoder when there is a model. *)
Ltac open_world w :=
  let mo := fresh "mo" in
  let ll := fresh "ll" in
  destruct w as [[mo ? ? ? ? ll ? ?] ?]; try destruct mo as [[?] | ].

(** Goals of the form [model s <> None -> model s' <> None]. *)
Ltac keeps_model :=
  solve [ intros _; discriminate | intros H; exact H | congruence
        | discriminate ].

(** ** The code on the sample session *)

Example strip_path : PyStr.strip "  /loras/a " = "/loras/a".
Proof. reflexivity. Qed.

Example strip_no_break_space :
  PyStr.strip ("/loras/a" ++ PyStr.bytes [194; 160]) = "/loras/a".
Proof. reflexivity. Qed.

Example strip_keeps_inner_blank :
  PyStr.strip (PyStr.bytes [226; 128; 131] ++ "my lora"
               ++ PyStr.bytes [227; 128; 128; 13])
  = "my lora".
Proof. reflexivity. Qed.

Example load_trailing_no_break_space :
  fst (load_lora Sample.rt ("/loras/a" ++ PyStr.bytes [194; 160])
         Sample.fresh)
  = Ok (Msg.loaded_from "/loras/a").
Proof. reflexivity. Qed.

Example load_no_break_space_only :
  load_lora Sample.rt (PyStr.bytes [194; 160]) Sample.fresh
  = (Ok Msg.no_path, Sample.fresh).
Proof. reflexivity. Qed.

Example format_four_fifths : format_2f four_fifths = "0.80".
Proof. vm_compute. reflexivity. Qed.

Example format_eighth : format_2f (S754_finite false 1 (-3)) = "0.12".
Proof. vm_compute. reflexivity. Qed.

Example clamp_scale_nan : clamp_scale S754_nan = one.
Proof. reflexivity. Qed.

Example load_then_status :
  fst (load_lora Sample.rt "  /loras/a " Sample.fresh)
  = Ok "✅ LoRA loaded from /loras/a" /\
  status_of (snd (load_lora Sample.rt "  /loras/a " Sample.fresh))
  = Ok {| loaded := true; active := true; scale := one |} /\
  self (snd (load_lora Sample.rt "  /loras/a " Sample.fresh))
  = self Sample.loaded.
Proof. vm_compute. repeat split; reflexivity. Qed.

Example rescale_message :
  fst (set_lora_scale Sample.rt four_fifths Sample.rescaled)
  = Ok "✅ LoRA scale: 0.80".
Proof. vm_compute. reflexivity. Qed.

Example toggle_raises_without_model :
  fst (set_use_lora Sample.rt false
         {| self := set_lora_loaded true (self Sample.uninitialized);
            calls := [] |})
  = Raise AttributeError_decoder.
Proof. reflexivity. Qed.

(** ** Floats: comparison lemmas *)

Lemma SFcompare_antisym (x y : float) (c : comparison) :
  SFcompare x y = Some c -> SFcompare y x = Some (CompOpp c).
Proof.
  destruct x as [sx | sx | | sx mx ex], y as [sy | sy | | sy my ey];
    simpl; try discriminate;
    try (destruct sx); try (destruct sy);
    intros H; inversion H; subst; try reflexivity.
  - rewrite (Z.compare_antisym ey ex).
    destruct (ey ?= ex)%Z; simpl; try reflexivity.
    do 2 f_equal. symmetry. exact (Pos.compare_cont_antisym mx my Eq).
  - rewrite (Z.compare_antisym ey ex).
    destruct (ey ?= ex)%Z; simpl; try reflexivity.
    f_equal. symmetry. exact (Pos.compare_cont_antisym mx my Eq).
Qed.

Lemma SFcompare_refl (x : float) :
  is_nan x = false -> SFcompare x x = Some Eq.
Proof.
  destruct x as [s | s | | s m e]; simpl; try discriminate;
    try (destruct s; reflexivity).
  intros _. rewrite Z.compare_refl.
  change (Pos.compare_cont Eq m m) with (Pos.compare m m).
  rewrite Pos.compare_refl. destruct s; reflexivity.
Qed.

Lemma SFcompare_total (x y : float) :
  is_nan x = false -> is_nan y = false -> exists c, SFcompare x y = Some c.
Proof.
  destruct x, y; simpl; try discriminate; eauto.
Qed.

(** Every argument, NaN included, is clamped into the unit range. *)
Lemma clamp_scale_in_unit_range (x : float) :
  in_unit_range (clamp_scale x) = true.
Proof.
  unfold clamp_scale, py_max, py_min, in_unit_range, gt, lt, le, SFltb, SFleb.
  destruct (SFcompare x one) as [[ | | ] | ] eqn:Hone; try reflexivity.
  destruct (SFcompare x zero) as [[ | | ] | ] eqn:Hzero; try reflexivity.
  rewrite (SFcompare_antisym _ _ _ Hzero), Hone. reflexivity.
Qed.

(** Off NaN the code's [max(0.0, min(1.0, x))] is the clamp of the
    specification, up to float equality ([-0.0 == 0.0]). *)
Lemma clamp_scale_is_clamp (x : float) :
  is_nan x = false -> eq (clamp_scale x) (clamp x zero one) = true.
Proof.
  intros Hx.
  destruct (SFcompare_total x one Hx eq_refl) as [c1 Hone].
  destruct (SFcompare_total x zero Hx eq_refl) as [c0 Hzero].
  pose proof (SFcompare_antisym _ _ _ Hone) as Hone'.
  pose proof (SFcompare_antisym _ _ _ Hzero) as Hzero'.
  pose proof (SFcompare_refl x Hx) as Hrefl.
  unfold clamp_scale, clamp, py_max, py_min, eq, gt, lt, SFeqb, SFltb.
  rewrite Hone, Hone', Hzero.
  destruct c1, c0; cbn [CompOpp] in *;
    change (SFcompare one zero) with (Some Gt);
    change (SFcompare one one) with (Some Eq);
    change (SFcompare zero zero) with (Some Eq);
    cbv iota;
    rewrite ?Hzero, ?Hzero', ?Hone, ?Hone', ?Hrefl; try reflexivity.
  all: destruct x as [s | s | | s m e]; try discriminate Hx; destruct s;
    try discriminate Hzero; discriminate Hone.
Qed.

(** ** What each operation can do to the session *)

Lemma load_lora_cases rt p w :
  exists r w', load_lora rt p w = (r, w') /\
    lora_scale (self w') = lora_scale (self w) /\
    (model (self w) <> None -> model (self w') <> None) /\
    ((exists msg,
        r = Ok msg /\ reports_success msg = true /\
        lora_loaded (self w') = true /\ use_lora (self w') = true /\
        model (self w') <> None)
     \/
     ((forall msg, r = Ok msg -> reports_success msg = false) /\
      lora_loaded (self w') = lora_loaded (self w) /\
      use_lora (self w') = use_lora (self w))).
Proof.
  open_world w; unfold load_lora; unfold_monad; simp; cases.
  all: do 2 eexists; split; [reflexivity|]; simp.
  all: split; [reflexivity|]; split; [keeps_model|].
  all: (left; eexists; repeat split; (reflexivity || keeps_model))
       || (right; repeat split; try reflexivity;
           intros ? [= <-]; reflexivity).
Qed.

Lemma unload_lora_cases rt w :
  exists msg w', unload_lora rt w = (Ok msg, w') /\
    (model (self w) <> None -> model (self w') <> None) /\
    ((reports_success msg = true /\
      lora_loaded (self w') = false /\ use_lora (self w') = false /\
      lora_scale (self w') = one)
     \/
     (reports_success msg = false /\
      lora_loaded (self w') = lora_loaded (self w) /\
      use_lora (self w') = use_lora (self w) /\
      lora_scale (self w') = lora_scale (self w))).
Proof.
  open_world w; unfold unload_lora; unfold_monad; simp; cases.
  all: do 2 eexists; split; [reflexivity|]; simp.
  all: split; [keeps_model|].
  all: (left; repeat split; reflexivity) || (right; repeat split; reflexivity).
Qed.

Lemma set_lora_scale_cases rt x w :
  exists msg w', set_lora_scale rt x w = (Ok msg, w') /\
    lora_loaded (self w') = lora_loaded (self w) /\
    use_lora (self w') = use_lora (self w) /\
    (model (self w) <> None -> model (self w') <> None) /\
    lora_scale (self w') =
      (if lora_loaded (self w) then clamp_scale x else lora_scale (self w)).
Proof.
  open_world w; unfold set_lora_scale, discover_active_adapters;
    unfold_monad; simp; cases.
  all: do 2 eexists; split; [reflexivity|]; simp.
  all: repeat split; (reflexivity || keeps_model).
Qed.

(** As [simp], leaving the nested call of [set_lora_scale] folded. *)
Ltac simp_outer :=
  cbn -[String.append PyStr.strip PyStr.os_path_join String.eqb
        clamp_scale format_2f scale_modules_direct scale_modules_fallback
        PyStr.contains String.prefix ne one in_unit_range set_lora_scale] in *.

Ltac use_set_lora_scale_cases :=
  match goal with
  | |- context [set_lora_scale ?rt ?x ?w] =>
      let E := fresh "E" in
      destruct (set_lora_scale_cases rt x w) as (? & ? & E & ? & ? & ? & ?);
      rewrite E; simp_outer
  end.

Lemma set_use_lora_cases rt b w :
  exists r w', set_use_lora rt b w = (r, w') /\
    lora_loaded (self w') = lora_loaded (self w) /\
    (model (self w) <> None -> model (self w') <> None) /\
    (lora_scale (self w') = lora_scale (self w) \/
     lora_scale (self w') = clamp_scale (lora_scale (self w))) /\
    ((b = true /\ lora_loaded (self w) = false /\
      r = Ok Msg.nothing_to_enable /\ w' = w)
     \/
     (use_lora (self w') = b /\ (b = true -> lora_loaded (self w) = true) /\
      (r = Ok (Msg.toggled b) \/
       (r = Raise AttributeError_decoder /\
        lora_loaded (self w) = true /\ model (self w) = None)))).
Proof.
  destruct w as [[mo q dev dt bd ll ul sc] cs].
  destruct b, ll, mo as [[d] | ]; unfold set_use_lora; unfold_monad; simp_outer;
    repeat (first [use_set_lora_scale_cases | break_match; simp_outer]).
  all: do 2 eexists; split; [reflexivity|]; simp_outer.
  all: repeat match goal with H : _ = _ |- _ => rewrite H in * end.
  all: intuition (try congruence; try discriminate).
Qed.

Lemma get_lora_status_pure w :
  get_lora_status w =
    (Ok {| loaded := lora_loaded (self w); active := use_lora (self w);
           scale := lora_scale (self w) |}, w).
Proof. reflexivity. Qed.

Lemma path_given (lora_path : string) :
  (lora_path =? "") || (PyStr.strip lora_path =? "")
  = (PyStr.strip lora_path =? "").
Proof. destruct lora_path; reflexivity. Qed.

(** ** Precondition failures *)

(** C3. On a session whose model is initialized and whose quantization
    is set, [load_lora] returns the quantization message for every path
    and every runtime, and leaves the whole session (flags, scale,
    snapshot, decoder) and the call log as they were. *)
Theorem load_lora_refuses_quantized rt lora_path w q :
  model (self w) <> None ->
  quantization (self w) = Some q ->
  load_lora rt lora_path w = (Ok (Msg.quantized q), w) /\
  reports_failure (Msg.quantized q) = true /\
  PyStr.contains "quantized" (Msg.quantized q) = true.
Proof.
  intros Hm Hq. destruct w as [[mo qz dev dt bd ll ul sc] cs].
  simpl in Hm, Hq. subst qz. destruct mo as [m | ]; [ | congruence].
  repeat split; reflexivity.
Qed.

Lemma load_lora_refuses_quantized_witness :
  model (self Sample.quantized) <> None /\
  quantization (self Sample.quantized) = Some "int8_weight_only" /\
  load_lora Sample.rt "/loras/a" Sample.quantized
  = (Ok (Msg.quantized "int8_weight_only"), Sample.quantized).
Proof.
  split; [discriminate | split; [reflexivity | ]].
  apply (load_lora_refuses_quantized Sample.rt "/loras/a" Sample.quantized
           "int8_weight_only"); [discriminate | reflexivity].
Defined.

(** C6. When no adapter is loaded, [set_use_lora(True)] returns a
    failure string and changes neither [use_lora] nor any other field;
    it makes no call on the decoder. *)
Theorem set_use_lora_true_needs_adapter rt w :
  lora_loaded (self w) = false ->
  set_use_lora rt true w = (Ok Msg.nothing_to_enable, w) /\
  reports_failure Msg.nothing_to_enable = true.
Proof.
  intros Hl. destruct w as [[mo qz dev dt bd ll ul sc] cs].
  simpl in Hl. subst ll. split; reflexivity.
Qed.

Lemma set_use_lora_true_needs_adapter_witness :
  lora_loaded (self Sample.fresh) = false /\
  set_use_lora Sample.rt true Sample.fresh
  = (Ok Msg.nothing_to_enable, Sample.fresh).
Proof.
  split; [reflexivity | ].
  apply (set_use_lora_true_needs_adapter Sample.rt Sample.fresh).
  reflexivity.
Defined.

(** C7. [load_lora] checks, in this order: the model is initialized;
    [quantization] is null; the path is non-empty once stripped; the
    stripped path exists; it holds [adapter_config.json]. The first
    check that fails decides the message, the session stays as it was,
    and the call log shows that no later check was evaluated: no
    filesystem call before check 4, one for check 4, two for check 5,
    and no import of the PEFT library. The last message names the
    missing file. *)
Theorem load_lora_checks_in_order rt lora_path w :
  let path := PyStr.strip lora_path in
  let config_file := PyStr.os_path_join path "adapter_config.json" in
  (model (self w) = None ->
   load_lora rt lora_path w = (Ok Msg.model_not_initialized, w)) /\
  (forall q, model (self w) <> None -> quantization (self w) = Some q ->
   load_lora rt lora_path w = (Ok (Msg.quantized q), w)) /\
  (model (self w) <> None -> quantization (self w) = None ->
   path = "" ->
   load_lora rt lora_path w = (Ok Msg.no_path, w)) /\
  (model (self w) <> None -> quantization (self w) = None ->
   path <> "" -> os_path_exists rt path = false ->
   load_lora rt lora_path w
   = (Ok (Msg.path_not_found path), after_probes w [path])) /\
  (model (self w) <> None -> quantization (self w) = None ->
   path <> "" -> os_path_exists rt path = true ->
   os_path_exists rt config_file = false ->
   load_lora rt lora_path w
   = (Ok (Msg.invalid_adapter path), after_probes w [path; config_file]) /\
   PyStr.contains "adapter_config.json" (Msg.invalid_adapter path) = true).
Proof.
  intros path config_file. subst path config_file.
  destruct w as [[mo qz dev dt bd ll ul sc] cs]. simpl.
  split; [ | split; [ | split; [ | split]]].
  - intros ->. reflexivity.
  - intros q Hm ->. destruct mo; [reflexivity | congruence].
  - intros Hm -> Hp. destruct mo; [ | congruence].
    unfold load_lora. unfold_monad. simp.
    rewrite path_given, Hp. reflexivity.
  - intros Hm -> Hp He. destruct mo; [ | congruence].
    apply String.eqb_neq in Hp.
    unfold load_lora. unfold_monad. simp.
    rewrite path_given, Hp. simp. rewrite He. reflexivity.
  - intros Hm -> Hp He Hc. destruct mo; [ | congruence].
    apply String.eqb_neq in Hp.
    unfold load_lora. unfold_monad. simp.
    split; [ | reflexivity].
    unfold load_lora. unfold_monad. simp.
    rewrite path_given, Hp. simp. rewrite He. simp. rewrite Hc. simp.
    unfold after_probes. simpl. rewrite <- app_assoc. reflexivity.
Qed.

Lemma load_lora_checks_in_order_witness :
  load_lora Sample.rt " /loras " Sample.fresh
  = (Ok (Msg.invalid_adapter "/loras"),
     after_probes Sample.fresh ["/loras"; "/loras/adapter_config.json"]).
Proof.
  apply (load_lora_checks_in_order Sample.rt " /loras " Sample.fresh);
    try reflexivity; discriminate.
Defined.

(** C10. [set_use_lora(False)] succeeds in every state of a session
    whose adapter, if loaded, sits on an initialized model: it stores
    [use_lora = False] and returns the success string. When no adapter
    is loaded this holds whatever the model is, nothing else changes and
    no call is made on the decoder (the call log is untouched). *)
Theorem set_use_lora_false_succeeds rt w :
  loaded_on_model (self w) ->
  exists w',
    set_use_lora rt false w = (Ok (Msg.toggled false), w') /\
    reports_success (Msg.toggled false) = true /\
    use_lora (self w') = false /\
    lora_loaded (self w') = lora_loaded (self w) /\
    (lora_loaded (self w) = false ->
     w' = {| self := set_use_lora_field false (self w); calls := calls w |}).
Proof.
  unfold loaded_on_model. intros Hm.
  destruct w as [[mo qz dev dt bd ll ul sc] cs]. simpl in Hm.
  destruct ll.
  - destruct mo as [[d] | ]; [ | exfalso; now apply Hm].
    unfold set_use_lora; unfold_monad; simp; cases.
    all: eexists; split; [reflexivity | ]; simp.
    all: repeat split; try reflexivity; discriminate.
  - eexists. split; [reflexivity | ].
    repeat split; reflexivity.
Qed.

Lemma set_use_lora_false_succeeds_witness :
  loaded_on_model (self Sample.fresh) /\
  exists w',
    set_use_lora Sample.rt false Sample.fresh = (Ok (Msg.toggled false), w') /\
    reports_success (Msg.toggled false) = true /\
    use_lora (self w') = false /\
    lora_loaded (self w') = lora_loaded (self Sample.fresh) /\
    (lora_loaded (self Sample.fresh) = false ->
     w' = {| self := set_use_lora_field false (self Sample.fresh);
             calls := calls Sample.fresh |}).
Proof.
  assert (H : loaded_on_model (self Sample.fresh))
    by (intros _; discriminate).
  split; [exact H | ].
  exact (set_use_lora_false_succeeds Sample.rt Sample.fresh H).
Defined.

(** ** Frame of [load_lora] *)

(** C9. A successful [load_lora] does not touch [lora_scale]:
    [get_lora_status] afterwards reports the scale stored before the
    load, with both flags set, while the decoder is the adapter just
    built by the library, placed and put in evaluation mode, on which
    the stored scale was not applied. *)
Theorem load_lora_keeps_scale rt lora_path w msg w' :
  load_lora rt lora_path w = (Ok msg, w') ->
  reports_success msg = true ->
  lora_scale (self w') = lora_scale (self w) /\
  status_of w' = Ok {| loaded := true; active := true;
                       scale := lora_scale (self w) |} /\
  exists source wrapped,
    snd (PeftModel_from_pretrained rt source (PyStr.strip lora_path))
    = Ok wrapped /\
    model (self w') = Some {| decoder := placed rt (self w) wrapped |}.
Proof.
  destruct w as [[mo qz dev dt bd ll ul sc] cs].
  unfold load_lora; unfold_monad; simp; cases.
  all: intros H Hs; inversion H; subst; clear H; try discriminate Hs.
  all: split; [reflexivity | split; [reflexivity | ]].
  all: do 2 eexists; split; [eassumption | reflexivity].
Qed.

(** On the sample session: 0.5 is stored, the adapter is loaded again,
    the status still shows 0.5 and the modules are the library's, at
    their own scaling. *)
Lemma load_lora_keeps_scale_witness :
  lora_scale (self Sample.rescaled) = half /\
  status_of (snd (load_lora Sample.rt "/loras/a" Sample.rescaled))
  = Ok {| loaded := true; active := true; scale := half |} /\
  modules_of (snd (load_lora Sample.rt "/loras/a" Sample.rescaled))
  = named_modules Sample.adapted.
Proof.
  split; [vm_compute; reflexivity | ].
  split; [ | vm_compute; reflexivity].
  apply (load_lora_keeps_scale Sample.rt "/loras/a" Sample.rescaled
           (Msg.loaded_from "/loras/a")
           (snd (load_lora Sample.rt "/loras/a" Sample.rescaled)));
    vm_compute; reflexivity.
Defined.

(** ** [unload_lora] and the status *)

(** C4, as stated, fails: when restoring the snapshot raises (here the
    copy runs out of memory), [unload_lora] returns its failure string
    and the status still shows the adapter loaded and active. *)
Lemma unload_lora_status_counterexample :
  unload_lora Sample.rt_out_of_memory Sample.rescaled
  = (Ok "❌ Failed to unload LoRA: CUDA out of memory",
     {| self := self Sample.rescaled; calls := calls Sample.rescaled ++ [call_deepcopy] |})
  /\ status_of {| self := self Sample.rescaled;
                  calls := calls Sample.rescaled ++ [call_deepcopy] |}
     = Ok {| loaded := true; active := true; scale := half |}
  /\ status_of {| self := self Sample.rescaled;
                  calls := calls Sample.rescaled ++ [call_deepcopy] |}
     <> Ok unloaded_status.
Proof.
  split; [reflexivity | split; [reflexivity | ]].
  discriminate.
Qed.

(** C4, amended. After a call to [unload_lora] that returns its success
    string, [get_lora_status] yields loaded false, active false and
    scale 1.0; a call that returns a warning or a failure string leaves
    the three fields as they were. *)
Theorem unload_lora_status rt w :
  exists msg w',
    unload_lora rt w = (Ok msg, w') /\
    ((reports_success msg = true /\ status_of w' = Ok unloaded_status)
     \/
     (reports_success msg = false /\ status_of w' = status_of w)).
Proof.
  destruct (unload_lora_cases rt w) as (msg & w' & E & _ & H).
  exists msg, w'. split; [exact E | ].
  unfold status_of. rewrite !get_lora_status_pure. simpl.
  destruct H as [(Hs & Hl & Hu & Hx) | (Hs & Hl & Hu & Hx)];
    [left | right]; (split; [exact Hs | ]);
    rewrite Hl, Hu, Hx; reflexivity.
Qed.

(** ** The stored scale *)

(** C2, as stated, fails: with no adapter loaded, [set_lora_scale(0.5)]
    returns its warning and the stored scale stays 1.0. *)
Lemma set_lora_scale_stores_clamp_counterexample :
  fst (set_lora_scale Sample.rt half Sample.fresh) = Ok Msg.no_lora /\
  lora_scale (self (snd (set_lora_scale Sample.rt half Sample.fresh))) = one /\
  clamp half zero one = half /\
  eq (lora_scale (self (snd (set_lora_scale Sample.rt half Sample.fresh))))
     (clamp half zero one) = false.
Proof. repeat split; reflexivity. Qed.

(** C2, amended. Whenever an adapter is loaded, [set_lora_scale(x)]
    stores [max(0.0, min(1.0, x))], which equals [clamp(x, 0, 1)] for
    every [x] that is not NaN (NaN is stored as 1.0), whatever the
    runtime does and whether the module loops succeed, raise or find
    nothing; when no adapter is loaded the call returns a warning and
    stores nothing. *)
Theorem set_lora_scale_stores_clamp rt x w :
  exists msg w',
    set_lora_scale rt x w = (Ok msg, w') /\
    (lora_loaded (self w) = true ->
     lora_scale (self w') = clamp_scale x /\
     (is_nan x = false ->
      eq (lora_scale (self w')) (clamp x zero one) = true) /\
     (is_nan x = true -> lora_scale (self w') = one)) /\
    (lora_loaded (self w) = false -> msg = Msg.no_lora /\ w' = w).
Proof.
  destruct (set_lora_scale_cases rt x w) as (msg & w' & E & _ & _ & _ & Hx).
  exists msg, w'. split; [exact E | ]. split.
  - intros Hl. rewrite Hl in Hx. rewrite Hx.
    split; [reflexivity | split].
    + apply clamp_scale_is_clamp.
    + destruct x; try discriminate. reflexivity.
  - intros Hl. destruct w as [[mo qz dev dt bd ll ul sc] cs].
    simpl in Hl. subst ll. inversion E. split; reflexivity.
Qed.

Lemma set_lora_scale_stores_clamp_witness :
  lora_loaded (self Sample.loaded) = true /\
  lora_scale (self (snd (set_lora_scale Sample.rt four_fifths Sample.loaded)))
  = four_fifths.
Proof.
  split; [reflexivity | ].
  destruct (set_lora_scale_stores_clamp Sample.rt four_fifths Sample.loaded)
    as (msg & w' & E & Hl & _).
  rewrite E. simpl. destruct (Hl eq_refl) as [-> _]. reflexivity.
Defined.

(** ** Invariants along sequences of operations *)

Lemma perform_cases rt o w :
  let w' := perform rt o w in
  (model (self w) <> None -> model (self w') <> None) /\
  ((lora_loaded (self w') = true /\ use_lora (self w') = true /\
    model (self w') <> None)
   \/ (lora_loaded (self w') = false /\ use_lora (self w') = false)
   \/ (lora_loaded (self w') = lora_loaded (self w) /\
       use_lora (self w') = use_lora (self w))
   \/ (lora_loaded (self w') = lora_loaded (self w) /\
       lora_loaded (self w) = true /\ use_lora (self w') = true)
   \/ (lora_loaded (self w') = lora_loaded (self w) /\
       use_lora (self w') = false)) /\
  (lora_scale (self w') = lora_scale (self w) \/
   lora_scale (self w') = one \/
   exists x, lora_scale (self w') = clamp_scale x).
Proof.
  destruct o as [p | | b | x | ]; simpl.
  - destruct (load_lora_cases rt p w)
      as (r & w' & E & Hx & Hm &
          [(msg & _ & _ & Hl & Hu & Hm') | (_ & Hl & Hu)]);
      rewrite E; simpl; auto 10.
  - destruct (unload_lora_cases rt w)
      as (msg & w' & E & Hm & [(_ & Hl & Hu & Hx) | (_ & Hl & Hu & Hx)]);
      rewrite E; simpl; auto 10.
  - destruct (set_use_lora_cases rt b w)
      as (r & w' & E & Hl & Hm & Hx & H); rewrite E; simpl.
    split; [exact Hm | split].
    + destruct H as [(_ & _ & _ & ->) | (Hu & Hb & _)]; [auto 10 | ].
      destruct b; [right; right; right; left | right; right; right; right];
        auto.
    + destruct Hx as [Hx | Hx]; [auto | right; right; eauto].
  - destruct (set_lora_scale_cases rt x w)
      as (msg & w' & E & Hl & Hu & Hm & Hx); rewrite E; simpl.
    split; [exact Hm | split; [auto 10 | ]].
    destruct (lora_loaded (self w)); [right; right; eauto | auto].
  - auto 10.
Qed.

Lemma perform_keeps_enabled_implies_loaded rt o w :
  enabled_implies_loaded (self w) ->
  enabled_implies_loaded (self (perform rt o w)).
Proof.
  unfold enabled_implies_loaded. intros Hinv.
  destruct (perform_cases rt o w) as (_ & H & _).
  destruct H as [(Hl & _) | [(_ & Hu) | [(Hl & Hu) | [(Hl & Hl' & _) |
                 (_ & Hu)]]]]; intros Hen; try congruence.
  rewrite Hl. apply Hinv. congruence.
Qed.

Lemma perform_keeps_loaded_on_model rt o w :
  loaded_on_model (self w) -> loaded_on_model (self (perform rt o w)).
Proof.
  unfold loaded_on_model. intros Hinv.
  destruct (perform_cases rt o w) as (Hm & H & _).
  destruct H as [(_ & _ & Hm') | [(Hl & _) | [(Hl & _) | [(Hl & _) |
                 (Hl & _)]]]]; intros Hen; try congruence;
    apply Hm, Hinv; congruence.
Qed.

Lemma loaded_on_model_invariant ops w :
  loaded_on_model (self w) ->
  Forall (fun w' => loaded_on_model (self w')) (states_after ops w).
Proof.
  revert w. induction ops as [ | [rt o] rest IH]; intros w Hw; simpl.
  - constructor.
  - pose proof (perform_keeps_loaded_on_model rt o w Hw) as Hw'.
    constructor; [exact Hw' | now apply IH].
Qed.

Lemma in_unit_range_one : in_unit_range one = true.
Proof. reflexivity. Qed.

Lemma perform_keeps_scale_in_range rt o w :
  in_unit_range (lora_scale (self w)) = true ->
  in_unit_range (lora_scale (self (perform rt o w))) = true.
Proof.
  intros Hinv. destruct (perform_cases rt o w) as (_ & _ & H).
  destruct H as [-> | [-> | (x & ->)]].
  - exact Hinv.
  - exact in_unit_range_one.
  - apply clamp_scale_in_unit_range.
Qed.

Lemma states_after_invariant (P : World -> Prop) :
  (forall rt o w, P w -> P (perform rt o w)) ->
  forall ops w, P w -> Forall P (states_after ops w).
Proof.
  intros Hstep ops. induction ops as [ | [rt o] rest IH]; intros w Hw; simpl.
  - constructor.
  - constructor; [ | apply IH]; now apply Hstep.
Qed.

(** C1. From a session in which [use_lora] implies [lora_loaded], the
    implication holds after each operation of every sequence of
    [load_lora], [unload_lora], [set_use_lora], [set_lora_scale] and
    [get_lora_status] calls, whatever the runtime does at each call: a
    successful load sets both flags, a successful unload clears both,
    [set_use_lora(True)] refuses when nothing is loaded, and no
    operation leaves [use_lora] true with [lora_loaded] false. *)
Theorem enabled_implies_loaded_invariant ops w :
  enabled_implies_loaded (self w) ->
  Forall (fun w' => enabled_implies_loaded (self w')) (states_after ops w) /\
  (forall rt lora_path msg w',
     load_lora rt lora_path w = (Ok msg, w') -> reports_success msg = true ->
     lora_loaded (self w') = true /\ use_lora (self w') = true) /\
  (forall rt msg w',
     unload_lora rt w = (Ok msg, w') -> reports_success msg = true ->
     lora_loaded (self w') = false /\ use_lora (self w') = false) /\
  (forall rt,
     lora_loaded (self w) = false ->
     set_use_lora rt true w = (Ok Msg.nothing_to_enable, w)) /\
  (forall rt o,
     ~ (use_lora (self (perform rt o w)) = true /\
        lora_loaded (self (perform rt o w)) = false)).
Proof.
  intros Hinv. split; [ | split; [ | split; [ | split]]].
  - apply (states_after_invariant
             (fun w' => enabled_implies_loaded (self w'))); [ | exact Hinv].
    intros rt o w0. apply perform_keeps_enabled_implies_loaded.
  - intros rt p msg w' E Hs.
    destruct (load_lora_cases rt p w)
      as (r & w0 & E0 & _ & _ & [(msg0 & _ & _ & Hl & Hu & _) | (Hf & _)]);
      rewrite E in E0; inversion E0; subst; [auto | ].
    specialize (Hf msg eq_refl). congruence.
  - intros rt msg w' E Hs.
    destruct (unload_lora_cases rt w)
      as (msg0 & w0 & E0 & _ & [(_ & Hl & Hu & _) | (Hf & _)]);
      rewrite E in E0; inversion E0; subst; [auto | congruence].
  - intros rt Hl. destruct w as [[mo qz dev dt bd ll ul sc] cs].
    simpl in Hl. subst ll. reflexivity.
  - intros rt o [Hu Hl].
    pose proof (perform_keeps_enabled_implies_loaded rt o w Hinv Hu).
    congruence.
Qed.

Lemma enabled_implies_loaded_invariant_witness :
  enabled_implies_loaded (self Sample.fresh) /\
  Forall (fun w' => enabled_implies_loaded (self w'))
    (states_after Sample.run Sample.fresh).
Proof.
  assert (H : enabled_implies_loaded (self Sample.fresh))
    by (intros Hu; discriminate Hu).
  split; [exact H | ].
  exact (proj1 (enabled_implies_loaded_invariant Sample.run Sample.fresh H)).
Defined.

(** C8. From a session whose [lora_scale] lies in [[0.0, 1.0]], the
    scale lies in that range after each operation of every sequence:
    [set_lora_scale] stores its argument clamped into the range,
    a successful [unload_lora] stores 1.0, and [load_lora],
    [set_use_lora] and [get_lora_status] store nothing outside it. *)
Theorem scale_in_unit_range_invariant ops w :
  in_unit_range (lora_scale (self w)) = true ->
  Forall (fun w' => in_unit_range (lora_scale (self w')) = true)
    (states_after ops w) /\
  (forall rt x,
     lora_loaded (self w) = true ->
     lora_scale (self (perform rt (SetScale x) w)) = clamp_scale x /\
     in_unit_range (clamp_scale x) = true) /\
  (forall rt msg w',
     unload_lora rt w = (Ok msg, w') -> reports_success msg = true ->
     lora_scale (self w') = one) /\
  (forall rt lora_path,
     lora_scale (self (perform rt (Load lora_path) w)) = lora_scale (self w)) /\
  (forall rt,
     lora_scale (self (perform rt GetStatus w)) = lora_scale (self w)).
Proof.
  intros Hinv. split; [ | split; [ | split; [ | split]]].
  - apply (states_after_invariant
             (fun w' => in_unit_range (lora_scale (self w')) = true));
      [ | exact Hinv].
    intros rt o w0. apply perform_keeps_scale_in_range.
  - intros rt x Hl. simpl.
    destruct (set_lora_scale_cases rt x w)
      as (msg & w' & E & _ & _ & _ & Hx); rewrite E; simpl.
    rewrite Hl in Hx. split; [exact Hx | apply clamp_scale_in_unit_range].
  - intros rt msg w' E Hs.
    destruct (unload_lora_cases rt w)
      as (msg0 & w0 & E0 & _ & [(_ & _ & _ & Hx) | (Hf & _)]);
      rewrite E in E0; inversion E0; subst; [auto | congruence].
  - intros rt p. simpl.
    destruct (load_lora_cases rt p w) as (msg & w' & E & Hx & _).
    rewrite E. exact Hx.
  - reflexivity.
Qed.

Lemma scale_in_unit_range_invariant_witness :
  in_unit_range (lora_scale (self Sample.fresh)) = true /\
  Forall (fun w' => in_unit_range (lora_scale (self w')) = true)
    (states_after Sample.run Sample.fresh).
Proof.
  assert (H : in_unit_range (lora_scale (self Sample.fresh)) = true)
    by reflexivity.
  split; [exact H | ].
  exact (proj1 (scale_in_unit_range_invariant Sample.run Sample.fresh H)).
Defined.

(** ** Dicts *)

Lemma dict_get_set_same k v d : dict_get k (dict_set k v d) = Some v.
Proof.
  induction d as [ | [k' v'] d IH]; simpl.
  - now rewrite String.eqb_refl.
  - destruct (k' =? k) eqn:E; simpl; rewrite E; [reflexivity | exact IH].
Qed.

Lemma dict_get_set_other k k' v d :
  k' <> k -> dict_get k' (dict_set k v d) = dict_get k' d.
Proof.
  intros Hne. induction d as [ | [k0 v0] d IH]; simpl.
  - apply String.eqb_neq in Hne. rewrite String.eqb_sym. now rewrite Hne.
  - destruct (k0 =? k) eqn:E; simpl.
    + apply String.eqb_eq in E. subst k0.
      assert (Hk : (k =? k') = false)
        by (apply String.eqb_neq; congruence).
      now rewrite Hk.
    + destruct (k0 =? k'); [reflexivity | exact IH].
Qed.

Lemma dict_set_keys k v d :
  In k (map fst d) -> map fst (dict_set k v d) = map fst d.
Proof.
  induction d as [ | [k' v'] d IH]; simpl; [tauto | ].
  intros Hin. destruct (k' =? k) eqn:E; simpl; [reflexivity | ].
  f_equal. apply IH. destruct Hin as [-> | Hin]; [ | exact Hin].
  now rewrite String.eqb_refl in E.
Qed.

(** ** The direct path on a dict *)

Lemma rescale_dict_keys original x keys live :
  incl keys (map fst live) ->
  map fst (fst (rescale_dict original x keys live)) = map fst live.
Proof.
  revert live. induction keys as [ | k keys IH]; intros live Hincl; simpl.
  - reflexivity.
  - destruct (val_getitem original k) as [n | e]; [ | reflexivity].
    destruct (num_mul n x) as [f | e]; [ | reflexivity].
    assert (Hk : In k (map fst live)) by (apply Hincl; now left).
    rewrite IH; rewrite dict_set_keys; auto.
    intros k' Hk'. apply Hincl. now right.
Qed.

Lemma rescale_dict_ok original x keys live live' :
  rescale_dict original x keys live = (live', Ok tt) ->
  forall k,
    (In k keys ->
     exists n f,
       val_getitem original k = Ok n /\ num_mul n x = Ok f /\
       dict_get k live' = Some (NFloat f)) /\
    (~ In k keys -> dict_get k live' = dict_get k live).
Proof.
  revert live. induction keys as [ | a keys IH]; intros live H k; simpl in H.
  - inversion H; subst. split; [intros [] | reflexivity].
  - destruct (val_getitem original a) as [n | e] eqn:Hget; [ | discriminate].
    destruct (num_mul n x) as [f | e] eqn:Hmul; [ | discriminate].
    destruct (IH _ H k) as [Hin Hout]. split.
    + intros Hk. destruct (in_dec string_dec k keys) as [Hk' | Hk'].
      * now apply Hin.
      * destruct Hk as [<- | Hk]; [ | contradiction].
        exists n, f. repeat split; auto.
        rewrite (Hout Hk'). apply dict_get_set_same.
    + intros Hk. rewrite Hout by (intros Hk'; apply Hk; now right).
      apply dict_get_set_other. intros ->. apply Hk. now left.
Qed.

(** ** The direct path on one module *)

Lemma same_shape_refl v : scalable v = true -> same_shape v v.
Proof. destruct v; simpl; auto; discriminate. Qed.

Lemma same_shape_trans a b c :
  same_shape a b -> same_shape b c -> same_shape a c.
Proof.
  destruct a, b, c; simpl; try tauto. intros H1 H2. congruence.
Qed.

Lemma same_shape_scalable a b : same_shape a b -> scalable b = true.
Proof. destruct a, b; simpl; tauto. Qed.

(** Whatever its outcome, a visit keeps the original value and the
    shape of the scaling. *)
Lemma scale_module_direct_keeps x name m before :
  scaling m = Some before -> scalable before = true ->
  let m' := fst (scale_module_direct x name m) in
  captured m' = captured m /\
  exists after, scaling m' = Some after /\ same_shape before after.
Proof.
  intros Hs Hb. unfold scale_module_direct.
  destruct (PyStr.contains "lora_" name); simpl;
    [ | split; [reflexivity | exists before; split;
                               [exact Hs | now apply same_shape_refl]]].
  rewrite Hs. destruct before as [d | n | ]; [ | | discriminate].
  - pose proof (rescale_dict_keys
                  (original_of (capture_original (SDict d) m)) x
                  (map fst d) d (incl_refl _)) as Hkeys.
    destruct (rescale_dict _ x (map fst d) d) as [d' [[] | e]];
      simpl in *; unfold captured, capture_original;
      (split; [destruct (_original_scaling m) eqn:Ho; simpl; rewrite ?Ho;
               congruence
              | exists (SDict d'); split; [reflexivity | exact Hkeys]]).
  - destruct (val_mul _ x) as [f | e]; simpl;
      unfold captured, capture_original;
      (split; [destruct (_original_scaling m) eqn:Ho; simpl; rewrite ?Ho;
               congruence | ]).
    + exists (SNum (NFloat f)). split; [reflexivity | exact I].
    + exists (SNum n). split; [ | exact I].
      destruct (_original_scaling m); simpl; exact Hs.
Qed.

Lemma captured_after_capture v m :
  scaling m = Some v ->
  captured m = Some (original_of (capture_original v m)) /\
  _original_scaling (capture_original v m)
  = Some (original_of (capture_original v m)) /\
  scaling (capture_original v m) = Some v.
Proof.
  intros Hs. unfold captured, original_of, capture_original.
  destruct (_original_scaling m) as [o | ] eqn:Ho; simpl; rewrite ?Ho; auto.
Qed.

(** A visit that does not raise leaves [original * x] in the module. *)
Lemma scale_module_direct_ok x name m m' touched before :
  scale_module_direct x name m = (m', Ok touched) ->
  PyStr.contains "lora_" name = true ->
  scaling m = Some before -> scalable before = true ->
  touched = true /\
  exists original live,
    captured m = Some original /\
    _original_scaling m' = Some original /\
    scaling m' = Some live /\ same_shape before live /\
    scaled_by original x live.
Proof.
  unfold scale_module_direct. intros H Hname Hs Hb.
  rewrite Hname, Hs in H.
  destruct (captured_after_capture before m Hs) as (Hcap & Horig & _).
  destruct before as [d | n | ]; [ | | discriminate].
  - set (m1 := capture_original (SDict d) m) in *.
    set (o := original_of m1) in *.
    pose proof (rescale_dict_keys o x (map fst d) d (incl_refl _)) as Hkeys.
    destruct (rescale_dict o x (map fst d) d) as [d' [[] | e]] eqn:Hr;
      inversion H; subst m' touched; clear H.
    split; [reflexivity | ]. exists o, (SDict d').
    split; [exact Hcap | split; [exact Horig | split; [reflexivity | ]]].
    simpl in Hkeys. split; [exact Hkeys | ].
    intros k Hk. simpl in Hk. rewrite Hkeys in Hk.
    exact (proj1 (rescale_dict_ok _ _ _ _ _ Hr k) Hk).
  - set (m1 := capture_original (SNum n) m) in *.
    set (o := original_of m1) in *.
    destruct (val_mul o x) as [f | e] eqn:Hmul;
      inversion H; subst m' touched; clear H.
    split; [reflexivity | ]. exists o, (SNum (NFloat f)).
    split; [exact Hcap | split; [exact Horig | split; [reflexivity | ]]].
    split; [exact I | exact Hmul].
Qed.

(** ** The direct path over the modules *)

Lemma scale_modules_direct_count x mods c mods' n :
  scale_modules_direct x mods c = (mods', Ok n) -> c <= n.
Proof.
  revert c mods'. induction mods as [ | [name m] rest IH];
    intros c mods' H; simpl in H.
  - inversion H. lia.
  - destruct (scale_module_direct x name m) as [m' [b | e]];
      [ | discriminate].
    destruct (scale_modules_direct x rest _) as [rest' r] eqn:Hrest.
    inversion H; subst. apply IH in Hrest. destruct b; lia.
Qed.

Lemma scale_modules_direct_nth x mods c i name m :
  nth_error mods i = Some (name, m) ->
  exists m',
    nth_error (fst (scale_modules_direct x mods c)) i = Some (name, m') /\
    (m' = m \/ m' = fst (scale_module_direct x name m)) /\
    (forall n,
       snd (scale_modules_direct x mods c) = Ok n ->
       exists touched,
         scale_module_direct x name m = (m', Ok touched) /\
         (touched = true -> c < n)).
Proof.
  revert c i. induction mods as [ | [name0 m0] rest IH]; intros c i Hi.
  - destruct i; discriminate.
  - simpl.
    destruct (scale_module_direct x name0 m0) as [m0' [b | e]] eqn:Hhead.
    + destruct (scale_modules_direct x rest (if b then S c else c))
        as [rest' r] eqn:Hrest.
      destruct i as [ | i]; simpl in Hi |- *.
      * inversion Hi; subst. exists m0'. rewrite Hhead.
        split; [reflexivity | split; [now right | ]].
        intros n ->. exists b. split; [reflexivity | ].
        intros ->. apply scale_modules_direct_count in Hrest. lia.
      * destruct (IH (if b then S c else c) i Hi) as (m' & Hn & Hm & Hok).
        rewrite Hrest in Hn, Hok. simpl in Hn, Hok.
        exists m'. split; [exact Hn | split; [exact Hm | ]].
        intros n Hr. destruct (Hok n Hr) as (t & Ht & Hc).
        exists t. split; [exact Ht | ]. intros ->.
        specialize (Hc eq_refl). destruct b; lia.
    + destruct i as [ | i]; simpl in Hi |- *.
      * inversion Hi; subst. exists m0'. rewrite Hhead.
        split; [reflexivity | split; [now right | ]]. discriminate.
      * exists m. split; [exact Hi | split; [now left | discriminate]].
Qed.

(** ** [set_lora_scale] on a decoder with a scalable adapter module *)

Lemma set_lora_scale_direct rt x w msg w' i name m before :
  lora_loaded (self w) = true -> use_lora (self w) = true ->
  nth_error (modules_of w) i = Some (name, m) ->
  PyStr.contains "lora_" name = true ->
  scaling m = Some before -> scalable before = true ->
  set_lora_scale rt x w = (Ok msg, w') ->
  modules_of w' = fst (scale_modules_direct (clamp_scale x) (modules_of w) 0) /\
  lora_loaded (self w') = true /\ use_lora (self w') = true /\
  (reports_success msg = true ->
   exists n,
     snd (scale_modules_direct (clamp_scale x) (modules_of w) 0) = Ok n).
Proof.
  intros Hl Hu Hi Hname Hs Hb.
  destruct w as [[mo qz dev dt bd ll ul sc] cs]. simpl in Hl, Hu. subst ll ul.
  destruct mo as [[d] | ]; [ | destruct i; discriminate Hi].
  unfold modules_of in *. simpl in Hi |- *.
  destruct (scale_modules_direct_nth (clamp_scale x) (named_modules d) 0
              i name m Hi) as (m' & _ & _ & Hok).
  unfold set_lora_scale, discover_active_adapters; unfold_monad; simp.
  destruct (snd (scale_modules_direct (clamp_scale x) (named_modules d) 0))
    as [n | e] eqn:Hsnd; simp.
  - destruct (Hok n eq_refl) as (t & Ht & Hc).
    destruct (scale_module_direct_ok _ _ _ _ _ _ Ht Hname Hs Hb) as [-> _].
    specialize (Hc eq_refl).
    destruct n as [ | n]; [lia | ]. simp.
    intros H; inversion H; subst; clear H. simpl.
    repeat split; eauto.
  - intros H; inversion H; subst; clear H. simpl.
    repeat split; try reflexivity. discriminate.
Qed.



(** ** No exception reaches the caller *)

(** X1. Inside [load_lora], [unload_lora] and [set_lora_scale] every
    exception (an instance of [Exception], see [Runtime]) raised by the
    copy, by PEFT's [from_pretrained] or by a method of the decoder or
    of its modules is turned into a status string that starts with the
    glyph of success, failure or warning.
    [unload_lora] and [set_lora_scale] therefore always return.
    [load_lora] returns unless the import of PEFT raises something else
    than [ImportError]: that exception is the only one that reaches the
    caller, after the two filesystem probes and with the session as it
    was. *)
Theorem operations_return_status rt w :
  (forall lora_path,
     (exists msg w',
        load_lora rt lora_path w = (Ok msg, w') /\ has_glyph msg = true) \/
     (exists e,
        import_peft rt = ImportRaised e /\
        load_lora rt lora_path w
        = (Raise e,
           {| self := self w;
              calls := calls w ++
                [call_os_path_exists (PyStr.strip lora_path);
                 call_os_path_exists
                   (PyStr.os_path_join (PyStr.strip lora_path)
                      "adapter_config.json");
                 call_import_peft] |}))) /\
  (exists msg w',
     unload_lora rt w = (Ok msg, w') /\ has_glyph msg = true) /\
  (forall x, exists msg w',
     set_lora_scale rt x w = (Ok msg, w') /\ has_glyph msg = true).
Proof.
  split; [ | split].
  - intros p. open_world w; unfold load_lora; unfold_monad; simp; cases.
    all: try (left; do 2 eexists; split; reflexivity).
    all: right; eexists; split; [reflexivity | ].
    all: repeat rewrite <- app_assoc; reflexivity.
  - open_world w; unfold unload_lora; unfold_monad; simp; cases.
    all: do 2 eexists; split; reflexivity.
  - intros x. open_world w; unfold set_lora_scale, discover_active_adapters;
      unfold_monad; simp; cases.
    all: do 2 eexists; split; reflexivity.
Qed.

(** X2. [set_use_lora] raises exactly when an adapter is marked loaded
    on a session without model: the unguarded [self.model.decoder] then
    raises [AttributeError], after [use_lora] was already assigned. *)
Theorem set_use_lora_raises_iff rt b w :
  ((exists e, fst (set_use_lora rt b w) = Raise e) <->
   (lora_loaded (self w) = true /\ model (self w) = None)) /\
  (lora_loaded (self w) = true -> model (self w) = None ->
   set_use_lora rt b w
   = (Raise AttributeError_decoder,
      {| self := set_use_lora_field b (self w); calls := calls w |})).
Proof.
  split.
  - split.
    + intros [e He].
      destruct (set_use_lora_cases rt b w)
        as (r & w' & E & _ & _ & _ & [(_ & _ & -> & _) | (_ & _ & H)]);
        rewrite E in He; simpl in He; [discriminate | ].
      destruct H as [-> | (_ & Hl & Hm)]; [discriminate | auto].
    + intros [Hl Hm]. destruct w as [[mo qz dev dt bd ll ul sc] cs].
      simpl in Hl, Hm. subst ll mo. exists AttributeError_decoder.
      destruct b; reflexivity.
  - intros Hl Hm. destruct w as [[mo qz dev dt bd ll ul sc] cs].
    simpl in Hl, Hm. subst ll mo. destruct b; reflexivity.
Qed.

(** ** What no operation changes *)

Lemma same_configuration_refl s : same_configuration s s.
Proof. unfold same_configuration. tauto. Qed.

Lemma same_configuration_trans s1 s2 s3 :
  same_configuration s1 s2 -> same_configuration s2 s3 ->
  same_configuration s1 s3.
Proof.
  unfold same_configuration.
  intros (Hq & Hd & Ht & Hm & Hb) (Hq' & Hd' & Ht' & Hm' & Hb').
  repeat split; try congruence; try tauto. auto.
Qed.

Ltac frame_goal :=
  unfold same_configuration; simp;
  repeat split; try reflexivity; try discriminate;
  try (intros; congruence); try (intros; assumption).

Lemma load_lora_frame rt p w :
  same_configuration (self w) (self (snd (load_lora rt p w))).
Proof.
  open_world w; unfold load_lora; unfold_monad; simp; cases.
  all: frame_goal.
Qed.

Lemma unload_lora_frame rt w :
  same_configuration (self w) (self (snd (unload_lora rt w))) /\
  _base_decoder (self (snd (unload_lora rt w))) = _base_decoder (self w).
Proof.
  open_world w; unfold unload_lora; unfold_monad; simp; cases.
  all: split; [frame_goal | reflexivity].
Qed.

Lemma set_lora_scale_frame rt x w :
  same_configuration (self w) (self (snd (set_lora_scale rt x w))) /\
  _base_decoder (self (snd (set_lora_scale rt x w))) = _base_decoder (self w).
Proof.
  open_world w; unfold set_lora_scale, discover_active_adapters;
    unfold_monad; simp; cases.
  all: split; [frame_goal | reflexivity].
Qed.

Ltac use_set_lora_scale_frame :=
  match goal with
  | |- context [set_lora_scale ?rt ?x ?w] =>
      let F := fresh "F" in
      let E := fresh "E" in
      pose proof (set_lora_scale_frame rt x w) as F;
      destruct (set_lora_scale rt x w) as [? ?] eqn:E;
      cbn [fst snd] in F; simp_outer
  end.

Lemma set_use_lora_frame rt b w :
  same_configuration (self w) (self (snd (set_use_lora rt b w))) /\
  _base_decoder (self (snd (set_use_lora rt b w))) = _base_decoder (self w).
Proof.
  destruct w as [[mo q dev dt bd ll ul sc] cs].
  destruct b, ll, mo as [[d] | ]; unfold set_use_lora; unfold_monad;
    simp_outer;
    repeat (first [use_set_lora_scale_frame | break_match; simp_outer]).
  all: try (split; [frame_goal | reflexivity]).
  all: destruct F as [F1 F2]; split; [ | exact F2].
  all: eapply same_configuration_trans; [ | exact F1]; frame_goal.
Qed.

Lemma perform_frame rt o w :
  same_configuration (self w) (self (perform rt o w)).
Proof.
  destruct o; simpl.
  - apply load_lora_frame.
  - apply unload_lora_frame.
  - apply set_use_lora_frame.
  - apply set_lora_scale_frame.
  - apply same_configuration_refl.
Qed.

(** X3. Along every sequence of operations the quantization setting,
    the device and the precision stay what they were, a session keeps
    or keeps lacking its model, and a snapshot, once taken, is never
    cleared nor replaced. *)
Theorem configuration_is_kept ops w :
  Forall (fun w' => same_configuration (self w) (self w'))
    (states_after ops w).
Proof.
  assert (H : forall ops w0 w,
             same_configuration (self w0) (self w) ->
             Forall (fun w' => same_configuration (self w0) (self w'))
               (states_after ops w)).
  { clear. induction ops as [ | [rt o] rest IH]; intros w0 w Hw; simpl.
    - constructor.
    - assert (Hw' : same_configuration (self w0) (self (perform rt o w)))
        by (eapply same_configuration_trans;
            [exact Hw | apply perform_frame]).
      constructor; [exact Hw' | now apply IH]. }
  apply H, same_configuration_refl.
Qed.

(** ** The snapshot *)

Lemma load_lora_snapshot rt p w :
  snapshot_when_loaded (self w) ->
  snapshot_when_loaded (self (snd (load_lora rt p w))).
Proof.
  unfold snapshot_when_loaded.
  open_world w; unfold load_lora; unfold_monad; simp; cases.
  all: intros H Hl; try discriminate; auto.
Qed.

Lemma perform_keeps_snapshot rt o w :
  snapshot_when_loaded (self w) ->
  snapshot_when_loaded (self (perform rt o w)).
Proof.
  destruct o as [p | | b | x | ]; simpl; [apply load_lora_snapshot | | | | auto];
    unfold snapshot_when_loaded; intros H Hl.
  - destruct (unload_lora_frame rt w) as [_ Hb]. rewrite Hb.
    destruct (unload_lora_cases rt w)
      as (msg & w' & E & _ & [(_ & Hl' & _) | (_ & Hl' & _)]);
      rewrite E in Hl; simpl in Hl; [congruence | ].
    apply H. congruence.
  - destruct (set_use_lora_frame rt b w) as [_ Hb]. rewrite Hb.
    destruct (set_use_lora_cases rt b w) as (r & w' & E & Hl' & _).
    rewrite E in Hl; simpl in Hl. apply H. congruence.
  - destruct (set_lora_scale_frame rt x w) as [_ Hb]. rewrite Hb.
    destruct (set_lora_scale_cases rt x w) as (r & w' & E & Hl' & _).
    rewrite E in Hl; simpl in Hl. apply H. congruence.
Qed.

(** X4. From a session in which a loaded adapter has its snapshot, the
    snapshot exists whenever an adapter is loaded after each operation
    of every sequence: [unload_lora] can always find it. *)
Theorem snapshot_when_loaded_invariant ops w :
  snapshot_when_loaded (self w) ->
  Forall (fun w' => snapshot_when_loaded (self w')) (states_after ops w).
Proof.
  apply (states_after_invariant (fun w' => snapshot_when_loaded (self w'))).
  intros rt o w0. apply perform_keeps_snapshot.
Qed.

Lemma snapshot_when_loaded_invariant_witness :
  snapshot_when_loaded (self Sample.fresh) /\
  Forall (fun w' => snapshot_when_loaded (self w'))
    (states_after Sample.run Sample.fresh).
Proof.
  assert (H : snapshot_when_loaded (self Sample.fresh))
    by (intros Hl; discriminate Hl).
  split; [exact H | ].
  exact (snapshot_when_loaded_invariant Sample.run Sample.fresh H).
Defined.

(** X5. In a session reached by the operations (a loaded adapter sits
    on a model and has its snapshot), [unload_lora] on a loaded adapter
    never answers with one of its two guards: it either restores the
    decoder or reports the exception that the restoration raised. *)
Theorem unload_lora_reaches_restoration rt w :
  snapshot_when_loaded (self w) ->
  lora_loaded (self w) = true ->
  exists msg w',
    unload_lora rt w = (Ok msg, w') /\
    (msg = Msg.unloaded \/ exists e, msg = Msg.unload_failed e) /\
    In call_deepcopy (calls w').
Proof.
  unfold snapshot_when_loaded. intros H Hl. specialize (H Hl).
  destruct w as [[mo q dev dt bd ll ul sc] cs]. simpl in H, Hl. subst ll.
  destruct bd as [base | ]; [ | congruence].
  unfold unload_lora; unfold_monad; simp; cases.
  all: do 2 eexists; split; [reflexivity | ]; simp.
  all: split; [eauto | ].
  all: repeat (rewrite in_app_iff; simpl); tauto.
Qed.

Lemma unload_lora_reaches_restoration_witness :
  snapshot_when_loaded (self Sample.loaded) /\
  lora_loaded (self Sample.loaded) = true /\
  exists msg w',
    unload_lora Sample.rt Sample.loaded = (Ok msg, w') /\
    (msg = Msg.unloaded \/ exists e, msg = Msg.unload_failed e) /\
    In call_deepcopy (calls w').
Proof.
  assert (H : snapshot_when_loaded (self Sample.loaded))
    by (intros _; discriminate).
  split; [exact H | split; [reflexivity | ]].
  exact (unload_lora_reaches_restoration Sample.rt Sample.loaded H eq_refl).
Defined.

(** ** A successful [load_lora] *)

Ltac checks_passed :=
  repeat match goal with
    | H : negb _ = false |- _ => apply negb_false_iff in H
    | H : _ || _ = false |- _ => apply orb_false_elim in H; destruct H
    | H : (_ =? _) = false |- _ => apply String.eqb_neq in H
    end.

(** X6. [load_lora] never reports success unless every precondition
    held: the model is initialized, the session is not quantized, the
    stripped path is non-empty and exists, it holds
    [adapter_config.json] and PEFT can be imported. The success string
    names the stripped path, and the calls made are, in order: the two
    filesystem probes, the import, the copy, [from_pretrained], the
    placement on the device, then on the precision, then [eval]. *)
Theorem load_lora_success_needs_checks rt lora_path w msg w' :
  load_lora rt lora_path w = (Ok msg, w') ->
  reports_success msg = true ->
  let path := PyStr.strip lora_path in
  msg = Msg.loaded_from path /\
  model (self w) <> None /\
  quantization (self w) = None /\
  path <> "" /\
  os_path_exists rt path = true /\
  os_path_exists rt (PyStr.os_path_join path "adapter_config.json") = true /\
  import_peft rt = Imported /\
  calls w' = (calls w ++ load_calls (self w) path)%list.
Proof.
  destruct w as [[mo qz dev dt bd ll ul sc] cs].
  unfold load_lora; unfold_monad; simp; cases.
  all: intros H Hs; inversion H; subst; clear H; try discriminate Hs.
  all: checks_passed; simp.
  all: repeat (split; [solve [reflexivity | discriminate | assumption] | ]).
  all: unfold load_calls; simpl; repeat rewrite <- app_assoc; reflexivity.
Qed.

Lemma load_lora_success_needs_checks_witness :
  os_path_exists Sample.rt "/loras/a" = true /\
  import_peft Sample.rt = Imported /\
  calls (snd (load_lora Sample.rt " /loras/a" Sample.fresh))
  = load_calls (self Sample.fresh) "/loras/a".
Proof.
  assert (E : load_lora Sample.rt " /loras/a" Sample.fresh
              = (Ok (Msg.loaded_from "/loras/a"),
                 snd (load_lora Sample.rt " /loras/a" Sample.fresh)))
    by (vm_compute; reflexivity).
  destruct (load_lora_success_needs_checks Sample.rt " /loras/a" Sample.fresh
              _ _ E eq_refl)
    as (_ & _ & _ & _ & He & _ & Hp & Hc).
  split; [exact He | split; [exact Hp | exact Hc]].
Defined.

(** X7. The first successful load takes the snapshot: a deep copy of
    the decoder as it was before the adapter, while the adapter is built
    on the decoder itself. *)
Theorem load_lora_first_takes_snapshot rt lora_path w msg w' :
  _base_decoder (self w) = None ->
  load_lora rt lora_path w = (Ok msg, w') ->
  reports_success msg = true ->
  exists d backup wrapped,
    model (self w) = Some {| decoder := d |} /\
    copy_deepcopy rt d = Ok backup /\
    _base_decoder (self w') = Some backup /\
    snd (PeftModel_from_pretrained rt d (PyStr.strip lora_path))
    = Ok wrapped /\
    model (self w') = Some {| decoder := placed rt (self w) wrapped |}.
Proof.
  destruct w as [[mo qz dev dt bd ll ul sc] cs]. simpl. intros ->.
  destruct mo as [[d] | ]; unfold load_lora; unfold_monad; simp; cases.
  all: intros H Hs; inversion H; subst; clear H; try discriminate Hs.
  do 3 eexists.
  split; [reflexivity | ]. split; [first [reflexivity | eassumption] | ].
  split; [reflexivity | ]. split; [eassumption | reflexivity].
Qed.

Lemma load_lora_first_takes_snapshot_witness :
  _base_decoder (self Sample.fresh) = None /\
  _base_decoder (self (snd (load_lora Sample.rt "/loras/a" Sample.fresh)))
  = Some Sample.base.
Proof.
  split; [reflexivity | ].
  assert (E : load_lora Sample.rt "/loras/a" Sample.fresh
              = (Ok (Msg.loaded_from "/loras/a"),
                 snd (load_lora Sample.rt "/loras/a" Sample.fresh)))
    by (vm_compute; reflexivity).
  destruct (load_lora_first_takes_snapshot Sample.rt "/loras/a" Sample.fresh
              _ _ eq_refl E eq_refl)
    as (d & backup & wrapped & Hd & Hcopy & Hb & _).
  rewrite Hb. injection Hd as <-. injection Hcopy as <-. reflexivity.
Defined.

(** X8. A later successful load starts again from the snapshot: the
    adapter is built on a fresh copy of the snapshot, whatever the
    current decoder holds (no adapter is stacked on another), and the
    snapshot stays the same. *)
Theorem load_lora_again_from_snapshot rt lora_path w base msg w' :
  _base_decoder (self w) = Some base ->
  load_lora rt lora_path w = (Ok msg, w') ->
  reports_success msg = true ->
  exists restored wrapped,
    copy_deepcopy rt base = Ok restored /\
    snd (PeftModel_from_pretrained rt restored (PyStr.strip lora_path))
    = Ok wrapped /\
    model (self w') = Some {| decoder := placed rt (self w) wrapped |} /\
    _base_decoder (self w') = Some base.
Proof.
  destruct w as [[mo qz dev dt bd ll ul sc] cs]. simpl. intros ->.
  destruct mo as [[d] | ]; unfold load_lora; unfold_monad; simp; cases.
  all: intros H Hs; inversion H; subst; clear H; try discriminate Hs.
  do 2 eexists.
  split; [reflexivity | ]. split; [eassumption | ].
  split; reflexivity.
Qed.

Lemma load_lora_again_from_snapshot_witness :
  _base_decoder (self Sample.twice) = Some Sample.base /\
  exists restored wrapped,
    copy_deepcopy Sample.rt Sample.base = Ok restored /\
    snd (PeftModel_from_pretrained Sample.rt restored (PyStr.strip "/loras/a"))
    = Ok wrapped /\
    model (self (snd (load_lora Sample.rt "/loras/a" Sample.twice)))
    = Some {| decoder := placed Sample.rt (self Sample.twice) wrapped |} /\
    _base_decoder (self (snd (load_lora Sample.rt "/loras/a" Sample.twice)))
    = Some Sample.base.
Proof.
  split; [reflexivity | ].
  assert (E : load_lora Sample.rt "/loras/a" Sample.twice
              = (Ok (Msg.loaded_from "/loras/a"),
                 snd (load_lora Sample.rt "/loras/a" Sample.twice)))
    by (vm_compute; reflexivity).
  exact (load_lora_again_from_snapshot Sample.rt "/loras/a" Sample.twice
           Sample.base _ _ eq_refl E eq_refl).
Defined.

(** X9. A load that does not succeed leaves the flags and the scale as
    they were, and unless it reports an exception of the library phase
    ("Failed to load LoRA") it leaves the whole session untouched. *)
Theorem load_lora_failure_is_contained rt lora_path w msg w' :
  load_lora rt lora_path w = (Ok msg, w') ->
  reports_success msg = false ->
  lora_loaded (self w') = lora_loaded (self w) /\
  use_lora (self w') = use_lora (self w) /\
  lora_scale (self w') = lora_scale (self w) /\
  ((exists e, msg = Msg.load_failed e) \/ self w' = self w).
Proof.
  destruct w as [[mo qz dev dt bd ll ul sc] cs].
  unfold load_lora; unfold_monad; simp; cases.
  all: intros H Hs; inversion H; subst; clear H; try discriminate Hs.
  all: repeat (split; [reflexivity | ]); eauto.
Qed.

Lemma load_lora_failure_is_contained_witness :
  self (snd (load_lora Sample.rt "/nowhere" Sample.loaded))
  = self Sample.loaded.
Proof.
  assert (E : load_lora Sample.rt "/nowhere" Sample.loaded
              = (Ok (Msg.path_not_found "/nowhere"),
                 snd (load_lora Sample.rt "/nowhere" Sample.loaded)))
    by (vm_compute; reflexivity).
  destruct (load_lora_failure_is_contained Sample.rt "/nowhere" Sample.loaded
              _ _ E eq_refl)
    as (_ & _ & _ & [[e He] | H]); [ | exact H].
  exfalso. vm_compute in He. discriminate He.
Defined.

(** X10. When the path and its configuration file are there, what
    [load_lora] does next is decided by the import of PEFT, which comes
    after the two filesystem probes and leaves the session untouched:
    on [ImportError] the call answers with the install hint; an
    exception of another class raised by the import is not caught and
    reaches the caller. *)
Theorem load_lora_without_peft rt lora_path w :
  let path := PyStr.strip lora_path in
  let after_import :=
    {| self := self w;
       calls := calls w ++
         [call_os_path_exists path;
          call_os_path_exists (PyStr.os_path_join path "adapter_config.json");
          call_import_peft] |} in
  model (self w) <> None -> quantization (self w) = None ->
  path <> "" -> os_path_exists rt path = true ->
  os_path_exists rt (PyStr.os_path_join path "adapter_config.json") = true ->
  (import_peft rt = NotImportable ->
   load_lora rt lora_path w = (Ok Msg.peft_missing, after_import)) /\
  (forall e, import_peft rt = ImportRaised e ->
   load_lora rt lora_path w = (Raise e, after_import)).
Proof.
  intros path after_import. subst path after_import.
  destruct w as [[mo qz dev dt bd ll ul sc] cs]. simpl.
  intros Hm -> Hp He Hc. destruct mo; [ | congruence].
  apply String.eqb_neq in Hp.
  split; [intros Hi | intros e Hi];
    unfold load_lora; unfold_monad; simp;
    rewrite path_given, Hp; simp; rewrite He; simp; rewrite Hc; simp;
    rewrite Hi; simp; repeat rewrite <- app_assoc; reflexivity.
Qed.

Lemma load_lora_without_peft_witness :
  load_lora Sample.rt_no_peft "/loras/a" Sample.fresh
  = (Ok Msg.peft_missing,
     {| self := self Sample.fresh;
        calls := [call_os_path_exists "/loras/a";
                  call_os_path_exists "/loras/a/adapter_config.json";
                  call_import_peft] |}) /\
  load_lora Sample.rt_broken_peft "/loras/a" Sample.fresh
  = (Raise (Exn "RuntimeError" "Failed to import peft: torch is broken"),
     {| self := self Sample.fresh;
        calls := [call_os_path_exists "/loras/a";
                  call_os_path_exists "/loras/a/adapter_config.json";
                  call_import_peft] |}).
Proof.
  split.
  - apply (load_lora_without_peft Sample.rt_no_peft "/loras/a" Sample.fresh);
      solve [reflexivity | discriminate].
  - apply (load_lora_without_peft Sample.rt_broken_peft "/loras/a"
             Sample.fresh);
      solve [reflexivity | discriminate].
Defined.

(** ** [unload_lora] *)

(** X11. [unload_lora] with nothing loaded answers with a warning, and
    with an adapter but no snapshot with a failure; in both cases the
    session is untouched and the runtime is not called. *)
Theorem unload_lora_guards rt w :
  (lora_loaded (self w) = false ->
   unload_lora rt w = (Ok Msg.nothing_to_unload, w)) /\
  (lora_loaded (self w) = true -> _base_decoder (self w) = None ->
   unload_lora rt w = (Ok Msg.no_backup, w)) /\
  reports_warning Msg.nothing_to_unload = true /\
  reports_failure Msg.no_backup = true.
Proof.
  destruct w as [[mo qz dev dt bd ll ul sc] cs]. simpl.
  split; [intros -> | split; [intros -> -> | split]]; reflexivity.
Qed.

(** X12. A successful [unload_lora] puts back a fresh copy of the
    snapshot, placed on the device, then on the precision, then in
    evaluation mode, and keeps the snapshot for the next load. *)
Theorem unload_lora_restores_snapshot rt w msg w' :
  unload_lora rt w = (Ok msg, w') ->
  reports_success msg = true ->
  exists base restored,
    lora_loaded (self w) = true /\
    _base_decoder (self w) = Some base /\
    copy_deepcopy rt base = Ok restored /\
    model (self w') = Some {| decoder := placed rt (self w) restored |} /\
    _base_decoder (self w') = Some base /\
    calls w' = (calls w ++ [call_deepcopy; call_to (device (self w));
                            call_to (dtype (self w)); call_eval])%list.
Proof.
  destruct w as [[mo qz dev dt bd ll ul sc] cs].
  destruct mo as [[d] | ]; unfold unload_lora; unfold_monad; simp; cases.
  all: intros H Hs; inversion H; subst; clear H; try discriminate Hs.
  apply negb_false_iff in Heqb. subst ll.
  do 2 eexists.
  split; [reflexivity | ]. split; [reflexivity | ].
  split; [first [reflexivity | eassumption] | ]. split; [reflexivity | ].
  split; [reflexivity | ].
  simpl. repeat rewrite <- app_assoc. reflexivity.
Qed.

Lemma unload_lora_restores_snapshot_witness :
  self (snd (unload_lora Sample.rt Sample.twice))
  = set_base_decoder Sample.base (self Sample.fresh).
Proof.
  assert (E : unload_lora Sample.rt Sample.twice
              = (Ok Msg.unloaded, snd (unload_lora Sample.rt Sample.twice)))
    by (vm_compute; reflexivity).
  destruct (unload_lora_restores_snapshot Sample.rt Sample.twice _ _
              E eq_refl) as (base & restored & _).
  vm_compute. reflexivity.
Defined.

(** ** The scale while the adapter is switched off *)

(** X13. With the adapter loaded but disabled, [set_lora_scale] only
    stores the clamped scale: no module is touched, the runtime is not
    called, and the status string says that the adapter is disabled. *)
Theorem set_lora_scale_while_disabled rt x w :
  lora_loaded (self w) = true -> use_lora (self w) = false ->
  set_lora_scale rt x w
  = (Ok (Msg.scale_while_disabled (clamp_scale x)),
     {| self := set_lora_scale_field (clamp_scale x) (self w);
        calls := calls w |}).
Proof.
  destruct w as [[mo qz dev dt bd ll ul sc] cs]. simpl.
  intros -> ->. reflexivity.
Qed.

Lemma set_lora_scale_while_disabled_witness :
  modules_of (snd (set_lora_scale Sample.rt half Sample.disabled))
  = modules_of Sample.loaded /\
  lora_scale (self (snd (set_lora_scale Sample.rt half Sample.disabled)))
  = half.
Proof.
  rewrite (set_lora_scale_while_disabled Sample.rt half Sample.disabled
             eq_refl eq_refl).
  split; reflexivity.
Defined.

(** Clamping twice is clamping once. *)
Lemma clamp_scale_idempotent x : clamp_scale (clamp_scale x) = clamp_scale x.
Proof.
  unfold clamp_scale, py_max, py_min, gt, lt, SFltb.
  destruct (SFcompare x one) as [[ | | ] | ] eqn:Hone;
    change (SFcompare one zero) with (Some Gt);
    change (SFcompare one one) with (Some Eq); cbv iota;
    rewrite ?Hone; cbv iota;
    change (SFcompare one zero) with (Some Gt); cbv iota; try reflexivity.
  destruct (SFcompare x zero) as [[ | | ] | ] eqn:Hzero;
    rewrite ?Hone, ?Hzero; cbv iota; rewrite ?Hzero; try reflexivity.
Qed.

(** X14. Toggling never changes the stored scale: when the stored
    scale is a clamped value (as every value that [set_lora_scale] or
    [unload_lora] stores is), the re-application on enabling stores it
    again unchanged. *)
Theorem set_use_lora_keeps_scale rt b x w :
  lora_scale (self w) = clamp_scale x ->
  lora_scale (self (snd (set_use_lora rt b w))) = lora_scale (self w).
Proof.
  intros Hx.
  destruct (set_use_lora_cases rt b w) as (r & w' & E & _ & _ & H & _).
  rewrite E. simpl. destruct H as [H | H]; [exact H | ].
  rewrite H, Hx. apply clamp_scale_idempotent.
Qed.

Lemma set_use_lora_keeps_scale_witness :
  lora_scale (self Sample.rescaled) = clamp_scale half /\
  lora_scale (self (snd (set_use_lora Sample.rt true Sample.rescaled))) = half.
Proof.
  assert (H : lora_scale (self Sample.rescaled) = clamp_scale half)
    by reflexivity.
  split; [exact H | ].
  rewrite (set_use_lora_keeps_scale Sample.rt true half Sample.rescaled H).
  reflexivity.
Defined.

(** X15. Toggling succeeds whatever the runtime does: on a session
    with a model, once the guard on enabling is passed, [set_use_lora]
    stores the flag and returns the success string, also when the
    decoder's enable or disable method raises. *)
Theorem set_use_lora_ignores_runtime_failures rt b w :
  model (self w) <> None ->
  (b = true -> lora_loaded (self w) = true) ->
  exists w',
    set_use_lora rt b w = (Ok (Msg.toggled b), w') /\
    use_lora (self w') = b /\
    lora_loaded (self w') = lora_loaded (self w).
Proof.
  intros Hm Hb.
  destruct (set_use_lora_cases rt b w)
    as (r & w' & E & Hl & _ & _ & [(-> & Hl' & _) | (Hu & _ & H)]).
  - specialize (Hb eq_refl). congruence.
  - destruct H as [-> | (_ & _ & Hn)]; [ | contradiction].
    exists w'. auto.
Qed.

Lemma set_use_lora_ignores_runtime_failures_witness :
  fst (enable_adapter_layers Sample.rt_no_toggle Sample.adapted)
  = Sample.adapted /\
  succeeded (snd (enable_adapter_layers Sample.rt_no_toggle Sample.adapted))
  = false /\
  exists w',
    set_use_lora Sample.rt_no_toggle true Sample.disabled
    = (Ok (Msg.toggled true), w') /\
    use_lora (self w') = true /\
    lora_loaded (self w') = lora_loaded (self Sample.disabled).
Proof.
  split; [reflexivity | split; [reflexivity | ]].
  apply (set_use_lora_ignores_runtime_failures
           Sample.rt_no_toggle true Sample.disabled);
    [discriminate | reflexivity].
Defined.

(** ** The deferred scale *)

(** [set_lora_scale] overwrites the stored scale and depends on its
    argument only through the clamp. *)
Lemma set_lora_scale_overwrites rt x mo qz dev dt bd ul s1 s2 cs :
  set_lora_scale rt (clamp_scale x)
    {| self := {| model := mo; quantization := qz; device := dev;
                  dtype := dt; _base_decoder := bd; lora_loaded := true;
                  use_lora := ul; lora_scale := s1 |};
       calls := cs |}
  = set_lora_scale rt x
      {| self := {| model := mo; quantization := qz; device := dev;
                    dtype := dt; _base_decoder := bd; lora_loaded := true;
                    use_lora := ul; lora_scale := s2 |};
         calls := cs |}.
Proof.
  unfold set_lora_scale, discover_active_adapters; unfold_monad; simp.
  rewrite clamp_scale_idempotent. reflexivity.
Qed.

(** X16. A scale set while the adapter is disabled is applied when it
    is enabled again, with the same result as setting it after
    enabling: provided the decoder can toggle its adapter layers,
    enabling does not raise, the scale stored before was 1.0 and the
    new one is not. *)
Theorem deferred_scale_is_applied_on_enable rt x w d :
  lora_loaded (self w) = true -> use_lora (self w) = false ->
  model (self w) = Some {| decoder := d |} ->
  has_disable_adapter_layers d = true ->
  snd (enable_adapter_layers rt d) = Ok tt ->
  ne (lora_scale (self w)) one = false ->
  ne (clamp_scale x) one = true ->
  snd (set_use_lora rt true (snd (set_lora_scale rt x w)))
  = snd (set_lora_scale rt x (snd (set_use_lora rt true w))).
Proof.
  destruct w as [[mo qz dev dt bd ll ul sc] cs]. simpl.
  intros -> -> -> Hcap Hen Hold Hnew.
  unfold set_lora_scale at 1. unfold_monad. simp_outer.
  unfold set_use_lora. unfold_monad. simp_outer.
  rewrite Hcap. simp_outer. rewrite Hen. simp_outer.
  rewrite Hold, Hnew. simp_outer.
  unfold set_decoder, set_use_lora_field, set_lora_scale_field. simp_outer.
  rewrite (set_lora_scale_overwrites rt x _ _ _ _ _ _ (clamp_scale x) sc).
  match goal with
  | |- context [set_lora_scale rt x ?W] =>
      destruct (set_lora_scale_cases rt x W) as (msg & w' & E & _);
      rewrite E
  end.
  reflexivity.
Qed.

Lemma deferred_scale_is_applied_on_enable_witness :
  snd (set_use_lora Sample.rt true
         (snd (set_lora_scale Sample.rt half Sample.disabled)))
  = snd (set_lora_scale Sample.rt half
           (snd (set_use_lora Sample.rt true Sample.disabled))) /\
  modules_of (snd (set_use_lora Sample.rt true
                     (snd (set_lora_scale Sample.rt half Sample.disabled))))
  = modules_of Sample.rescaled.
Proof.
  split; [ | vm_compute; reflexivity].
  apply (deferred_scale_is_applied_on_enable Sample.rt half Sample.disabled
           Sample.adapted); vm_compute; reflexivity.
Defined.

(** X17. With a stored scale equal to 1.0, enabling the adapter only
    calls the decoder's enable method: the scale is not re-applied, so
    the modules keep the scaling they had, also one left by an earlier
    smaller scale. *)
Theorem unit_scale_is_not_reapplied rt w d :
  lora_loaded (self w) = true ->
  model (self w) = Some {| decoder := d |} ->
  has_disable_adapter_layers d = true ->
  ne (lora_scale (self w)) one = false ->
  set_use_lora rt true w
  = (Ok (Msg.toggled true),
     {| self := set_decoder (fst (enable_adapter_layers rt d))
                 (set_use_lora_field true (self w));
        calls := calls w ++ [call_hasattr "disable_adapter_layers";
                             call_enable_adapter_layers] |}).
Proof.
  destruct w as [[mo qz dev dt bd ll ul sc] cs]. simpl.
  intros -> -> Hcap Hold.
  unfold set_use_lora. unfold_monad. simp_outer.
  rewrite Hcap. simp_outer. rewrite Hold.
  destruct (snd (enable_adapter_layers rt d)); simp_outer;
    rewrite <- app_assoc; reflexivity.
Qed.

(** On the sample session: the modules were brought to half their
    scaling, the adapter was disabled and the scale set back to 1.0;
    after enabling, the status shows 1.0 and the sublayer that started
    from 2.0 is still at 1.0. *)
Lemma unit_scale_is_not_reapplied_witness :
  status_of (snd (set_use_lora Sample.rt true Sample.stale))
  = Ok {| loaded := true; active := true; scale := one |} /\
  nth_error (modules_of (snd (set_use_lora Sample.rt true Sample.stale))) 1
  = Some ("base_model.model.layers.0.attn.lora_A",
          {| scaling := Some (SNum (NFloat one));
             _original_scaling := Some (SNum (NFloat Sample.two));
             class_module := "torch.nn.modules.linear";
             class_name := "Linear";
             has_set_scale := false; has_scale_layer := false |}).
Proof.
  assert (E : model (self Sample.stale)
              = Some {| decoder :=
                          match model (self Sample.stale) with
                          | Some m => decoder m
                          | None => Sample.base
                          end |})
    by (vm_compute; reflexivity).
  rewrite (unit_scale_is_not_reapplied Sample.rt Sample.stale _
             eq_refl E eq_refl eq_refl).
  vm_compute. split; reflexivity.
Defined.

(** ** What the direct path leaves alone *)

Lemma scale_module_direct_skips x name m :
  direct_target name m = false ->
  scale_module_direct x name m = (m, Ok false).
Proof.
  unfold direct_target, scale_module_direct.
  destruct (PyStr.contains "lora_" name); [ | reflexivity].
  destruct (scaling m) as [[d | n | ] | ]; simpl; try discriminate;
    reflexivity.
Qed.

Lemma scale_modules_direct_names x mods c :
  map fst (fst (scale_modules_direct x mods c)) = map fst mods.
Proof.
  revert c. induction mods as [ | [name m] rest IH]; intros c; simpl.
  - reflexivity.
  - destruct (scale_module_direct x name m) as [m' [b | e]]; simpl.
    + specialize (IH (if b then S c else c)).
      destruct (scale_modules_direct x rest _) as [rest' r]. simpl in *.
      now rewrite IH.
    + reflexivity.
Qed.

(** X18. The first loop of [set_lora_scale] keeps the list of modules
    and their names, and returns unchanged every module whose name
    lacks ["lora_"] or whose [scaling] is absent or neither a dict nor
    a number (attention scaling and the like), whether or not the loop
    raises further on. *)
Theorem direct_path_leaves_others_alone x mods c :
  map fst (fst (scale_modules_direct x mods c)) = map fst mods /\
  forall i name m,
    nth_error mods i = Some (name, m) ->
    direct_target name m = false ->
    nth_error (fst (scale_modules_direct x mods c)) i = Some (name, m).
Proof.
  split; [apply scale_modules_direct_names | ].
  intros i name m Hi Ht.
  destruct (scale_modules_direct_nth x mods c i name m Hi)
    as (m' & Hn & [-> | ->] & _); [exact Hn | ].
  rewrite Hn, (scale_module_direct_skips x name m Ht). reflexivity.
Qed.

Lemma direct_path_leaves_others_alone_witness :
  nth_error
    (fst (scale_modules_direct half (named_modules Sample.adapted) 0)) 0
  = Some ("base_model.model.layers.0.attn", Sample.linear None).
Proof.
  apply (proj2 (direct_path_leaves_others_alone half
                  (named_modules Sample.adapted) 0) 0);
    reflexivity.
Defined.

(** ** The direct path in closed form *)

(** With a module that takes the direct path, [set_lora_scale] on an
    enabled adapter is the first loop and nothing else. *)
Lemma set_lora_scale_direct_eq rt x w d i name m before :
  lora_loaded (self w) = true -> use_lora (self w) = true ->
  model (self w) = Some {| decoder := d |} ->
  nth_error (named_modules d) i = Some (name, m) ->
  PyStr.contains "lora_" name = true ->
  scaling m = Some before -> scalable before = true ->
  let c := clamp_scale x in
  let loop := scale_modules_direct c (named_modules d) 0 in
  set_lora_scale rt x w
  = (Ok (if succeeded (snd loop) then Msg.scale_applied c
         else Msg.scale_partial c),
     {| self := set_decoder (set_modules (fst loop) d)
                  (set_lora_scale_field c (self w));
        calls := calls w ++ [call_named_modules] |}).
Proof.
  intros Hl Hu Hm Hi Hname Hs Hb c loop. subst c loop.
  destruct w as [[mo qz dev dt bd ll ul sc] cs].
  simpl in Hl, Hu, Hm. subst ll ul mo.
  destruct (scale_modules_direct_nth (clamp_scale x) (named_modules d) 0
              i name m Hi) as (m' & _ & _ & Hok).
  unfold set_lora_scale, discover_active_adapters; unfold_monad; simp.
  destruct (snd (scale_modules_direct (clamp_scale x) (named_modules d) 0))
    as [n | e] eqn:Hsnd; simp; [ | reflexivity].
  destruct (Hok n eq_refl) as (t & Ht & Hc).
  destruct (scale_module_direct_ok _ _ _ _ _ _ Ht Hname Hs Hb) as [-> _].
  specialize (Hc eq_refl).
  destruct n as [ | n]; [lia | ]. reflexivity.
Qed.

(** X19. When some module takes the direct path, the method fallback is
    not used: the result of [set_lora_scale] is the first loop over the
    modules, success if it completes and the partial-success note if it
    raises, and it does not depend on what the runtime would do. *)
Theorem direct_path_preempts_fallback rt rt' x w i name m before :
  lora_loaded (self w) = true -> use_lora (self w) = true ->
  nth_error (modules_of w) i = Some (name, m) ->
  PyStr.contains "lora_" name = true ->
  scaling m = Some before -> scalable before = true ->
  set_lora_scale rt x w = set_lora_scale rt' x w /\
  modules_of (snd (set_lora_scale rt x w))
  = fst (scale_modules_direct (clamp_scale x) (modules_of w) 0) /\
  (fst (set_lora_scale rt x w) = Ok (Msg.scale_applied (clamp_scale x)) \/
   fst (set_lora_scale rt x w) = Ok (Msg.scale_partial (clamp_scale x))).
Proof.
  intros Hl Hu Hi Hname Hs Hb.
  destruct (model (self w)) as [[d] | ] eqn:Hm;
    [ | unfold modules_of in Hi; rewrite Hm in Hi; destruct i; discriminate].
  assert (Hi' : nth_error (named_modules d) i = Some (name, m))
    by (unfold modules_of in Hi; now rewrite Hm in Hi).
  rewrite (set_lora_scale_direct_eq rt x w d i name m before),
          (set_lora_scale_direct_eq rt' x w d i name m before); auto.
  split; [reflexivity | ]. split.
  - unfold modules_of. rewrite Hm. simpl. rewrite Hm. reflexivity.
  - simpl. destruct (succeeded _); auto.
Qed.

Lemma direct_path_preempts_fallback_witness :
  set_lora_scale Sample.rt half Sample.loaded
  = set_lora_scale Sample.rt_no_toggle half Sample.loaded.
Proof.
  apply (direct_path_preempts_fallback Sample.rt Sample.rt_no_toggle half
           Sample.loaded 1 "base_model.model.layers.0.attn.lora_A"
           (Sample.linear (Some (SNum (NFloat Sample.two))))
           (SNum (NFloat Sample.two)));
    reflexivity.
Defined.

(** ** The original scaling is never lost *)

Lemma set_lora_scale_keeps_captured rt x w i name m before :
  lora_loaded (self w) = true ->
  nth_error (modules_of w) i = Some (name, m) ->
  PyStr.contains "lora_" name = true ->
  scaling m = Some before -> scalable before = true ->
  exists m' after,
    nth_error (modules_of (snd (set_lora_scale rt x w))) i = Some (name, m') /\
    captured m' = captured m /\
    scaling m' = Some after /\ same_shape before after.
Proof.
  intros Hl Hi Hname Hs Hb.
  destruct (use_lora (self w)) eqn:Hu.
  - destruct (set_lora_scale_cases rt x w) as (msg & w' & E & _).
    destruct (set_lora_scale_direct _ _ _ _ _ _ _ _ _ Hl Hu Hi Hname Hs Hb E)
      as (Hmods & _).
    rewrite E. simpl. rewrite Hmods.
    destruct (scale_modules_direct_nth (clamp_scale x) (modules_of w) 0
                i name m Hi) as (m' & Hn & Hm' & _).
    exists m'.
    destruct Hm' as [-> | ->].
    + exists before. repeat split; auto using same_shape_refl.
    + destruct (scale_module_direct_keeps (clamp_scale x) name m before Hs Hb)
        as (Hc & after & Ha & Hshape).
      exists after. auto.
  - exists m, before.
    destruct w as [[mo qz dev dt bd ll ul sc] cs]. simpl in Hl, Hu.
    subst ll ul. repeat split; auto using same_shape_refl.
Qed.

(** X20. No run of [set_lora_scale] calls loses the original scaling of
    a module: for a module named with ["lora_"] whose [scaling] is a
    number or a dict, the original value (captured or still live) is
    the same after any number of calls, with any scales and runtimes
    and whether the calls succeed or raise midway, and the scaling
    keeps its kind and its keys. *)
Theorem original_scaling_survives_rescaling
    (scalings : list (Runtime * float)) w i name m before :
  lora_loaded (self w) = true ->
  nth_error (modules_of w) i = Some (name, m) ->
  PyStr.contains "lora_" name = true ->
  scaling m = Some before -> scalable before = true ->
  let w' := fold_left (fun w0 rx => snd (set_lora_scale (fst rx) (snd rx) w0))
              scalings w in
  exists m' after,
    nth_error (modules_of w') i = Some (name, m') /\
    captured m' = captured m /\
    scaling m' = Some after /\ same_shape before after.
Proof.
  revert w m before.
  induction scalings as [ | [rt x] rest IH]; intros w m before Hl Hi Hn Hs Hb;
    simpl.
  - exists m, before. repeat split; auto using same_shape_refl.
  - destruct (set_lora_scale_keeps_captured rt x w i name m before
                Hl Hi Hn Hs Hb) as (m1 & mid & Hi1 & Hc1 & Hs1 & Hshape1).
    assert (Hl1 : lora_loaded (self (snd (set_lora_scale rt x w))) = true).
    { destruct (set_lora_scale_cases rt x w) as (msg & w1 & E & Hl1 & _).
      rewrite E. simpl. congruence. }
    destruct (IH _ m1 mid Hl1 Hi1 Hn Hs1 (same_shape_scalable _ _ Hshape1))
      as (m' & after & Hi' & Hc' & Hs' & Hshape').
    exists m', after. repeat split; auto; try congruence.
    eapply same_shape_trans; eassumption.
Qed.

Lemma original_scaling_survives_rescaling_witness :
  exists m' after,
    nth_error
      (modules_of
         (fold_left (fun w0 rx => snd (set_lora_scale (fst rx) (snd rx) w0))
            [(Sample.rt, half); (Sample.rt_no_toggle, zero);
             (Sample.rt, four_fifths)]
            Sample.loaded)) 2
    = Some ("base_model.model.layers.0.attn.lora_B", m') /\
    captured m'
    = Some (SDict [("default", NFloat Sample.two); ("style", NInt 3)]) /\
    scaling m' = Some after /\
    same_shape (SDict [("default", NFloat Sample.two); ("style", NInt 3)])
      after.
Proof.
  exact (original_scaling_survives_rescaling
           [(Sample.rt, half); (Sample.rt_no_toggle, zero);
            (Sample.rt, four_fifths)]
           Sample.loaded 2 "base_model.model.layers.0.attn.lora_B"
           (Sample.linear
              (Some (SDict [("default", NFloat Sample.two);
                            ("style", NInt 3)])))
           (SDict [("default", NFloat Sample.two); ("style", NInt 3)])
           eq_refl eq_refl eq_refl eq_refl eq_refl).
Defined.

(** ** A key without original *)

Lemma rescale_dict_fails original x keys live k :
  In k keys ->
  (forall n, val_getitem original k <> Ok n) ->
  succeeded (snd (rescale_dict original x keys live)) = false.
Proof.
  intros Hk Hget.
  destruct (rescale_dict original x keys live) as [live' [[] | e]] eqn:Hr;
    [ | reflexivity].
  destruct (proj1 (rescale_dict_ok _ _ _ _ _ Hr k) Hk) as (n & _ & Hn & _).
  now apply Hget in Hn.
Qed.

(** X21. When a module's [scaling] dict holds a key that its captured
    [_original_scaling] lacks (an adapter added after the first
    rescaling), the lookup raises inside the loop: [set_lora_scale]
    still stores the clamped scale and returns the partial-success
    note. *)
Theorem missing_original_key_gives_partial rt x w i name m d o k :
  lora_loaded (self w) = true -> use_lora (self w) = true ->
  nth_error (modules_of w) i = Some (name, m) ->
  PyStr.contains "lora_" name = true ->
  scaling m = Some (SDict d) -> _original_scaling m = Some (SDict o) ->
  In k (map fst d) -> dict_get k o = None ->
  exists w',
    set_lora_scale rt x w = (Ok (Msg.scale_partial (clamp_scale x)), w') /\
    lora_scale (self w') = clamp_scale x.
Proof.
  intros Hl Hu Hi Hname Hs Ho Hk Hmiss.
  destruct (model (self w)) as [[dec] | ] eqn:Hm;
    [ | unfold modules_of in Hi; rewrite Hm in Hi; destruct i; discriminate].
  assert (Hi' : nth_error (named_modules dec) i = Some (name, m))
    by (unfold modules_of in Hi; now rewrite Hm in Hi).
  rewrite (set_lora_scale_direct_eq rt x w dec i name m (SDict d)); auto.
  destruct (scale_modules_direct_nth (clamp_scale x) (named_modules dec) 0
              i name m Hi') as (m' & _ & _ & Hok).
  destruct (snd (scale_modules_direct (clamp_scale x) (named_modules dec) 0))
    as [n | e] eqn:Hsnd; simpl.
  - exfalso. destruct (Hok n eq_refl) as (t & Ht & _).
    unfold scale_module_direct in Ht. rewrite Hname, Hs in Ht.
    assert (Hfail : succeeded
              (snd (rescale_dict
                      (original_of (capture_original (SDict d) m))
                      (clamp_scale x) (map fst d) d)) = false).
    { apply rescale_dict_fails with (k := k); [exact Hk | ].
      unfold original_of, capture_original. rewrite Ho, Ho.
      intros n0. simpl. rewrite Hmiss. discriminate. }
    destruct (rescale_dict _ (clamp_scale x) (map fst d) d) as [d' [[] | e]];
      simpl in Hfail; discriminate.
  - eexists. split; reflexivity.
Qed.

Lemma missing_original_key_gives_partial_witness :
  fst (set_lora_scale Sample.rt half Sample.grown)
  = Ok "⚠️ Scale set to 0.50 (partial)".
Proof.
  destruct (missing_original_key_gives_partial Sample.rt half Sample.grown
              0 "base_model.model.layers.0.attn.lora_B"
              {| scaling :=
                   Some (SDict [("default", NFloat Sample.two);
                                ("late", NFloat Sample.two)]);
                 _original_scaling :=
                   Some (SDict [("default", NFloat Sample.two)]);
                 class_module := "torch.nn.modules.linear";
                 class_name := "Linear";
                 has_set_scale := false; has_scale_layer := false |}
              [("default", NFloat Sample.two); ("late", NFloat Sample.two)]
              [("default", NFloat Sample.two)] "late"
              eq_refl eq_refl eq_refl eq_refl eq_refl eq_refl
              (or_intror (or_introl eq_refl)) eq_refl)
    as (w' & E & _).
  rewrite E. vm_compute. reflexivity.
Defined.

(** ** A decoder without adapter layers *)

Lemma scale_modules_direct_skips_all x mods c :
  forallb (fun nm => negb (direct_target (fst nm) (snd nm))) mods = true ->
  scale_modules_direct x mods c = (mods, Ok c).
Proof.
  revert c. induction mods as [ | [name m] rest IH]; intros c H; simpl in *.
  - reflexivity.
  - apply andb_true_iff in H. destruct H as [Hm Hrest].
    apply negb_true_iff in Hm.
    rewrite (scale_module_direct_skips x name m Hm), (IH c Hrest).
    reflexivity.
Qed.

Lemma scale_modules_fallback_skips_all rt x adapters mods c :
  forallb (fun nm => negb (is_probably_lora_layer (snd nm))) mods = true ->
  scale_modules_fallback rt x adapters mods c = (mods, c).
Proof.
  revert c. induction mods as [ | [name m] rest IH]; intros c H; simpl in *.
  - reflexivity.
  - apply andb_true_iff in H. destruct H as [Hm Hrest].
    unfold scale_module_fallback. rewrite Hm, (IH c Hrest). reflexivity.
Qed.

(** X22. On an enabled adapter whose decoder has no module for either
    path (none named with ["lora_"] and a dict or numeric [scaling],
    none whose class looks like a LoRA layer), [set_lora_scale] stores
    the clamped scale, changes no module and returns the warning that
    no modules were found, provided listing the active adapters does
    not raise. *)
Theorem no_adapter_layer_gives_warning rt x w d :
  lora_loaded (self w) = true -> use_lora (self w) = true ->
  model (self w) = Some {| decoder := d |} ->
  forallb (fun nm => negb (direct_target (fst nm) (snd nm)))
    (named_modules d) = true ->
  forallb (fun nm => negb (is_probably_lora_layer (snd nm)))
    (named_modules d) = true ->
  (forall e, active_adapters d <> Some (Callable (Raise e))) ->
  exists w',
    set_lora_scale rt x w = (Ok (Msg.scale_no_modules (clamp_scale x)), w') /\
    modules_of w' = modules_of w /\
    lora_scale (self w') = clamp_scale x.
Proof.
  destruct w as [[mo qz dev dt bd ll ul sc] cs]. simpl.
  intros -> -> -> Hdirect Hfallback Hcall.
  unfold set_lora_scale, discover_active_adapters; unfold_monad; simp.
  rewrite (scale_modules_direct_skips_all _ _ 0 Hdirect). simp.
  destruct (active_adapters d) as [[v | [v | e]] | ] eqn:Ha; simp;
    try (exfalso; eapply Hcall; reflexivity).
  all: repeat (break_match; simp).
  all: rewrite ?scale_modules_fallback_skips_all in * by assumption.
  all: simp.
  all: try match goal with
         | H : scale_modules_fallback _ _ _ _ _ = _ |- _ =>
             rewrite scale_modules_fallback_skips_all in H by assumption;
             inversion H; subst; clear H
         end.
  all: repeat match goal with
         | H : (_, _) = (_, _) |- _ => inversion H; subst; clear H
         end.
  all: eexists; split; [reflexivity | split; reflexivity].
Qed.

Lemma no_adapter_layer_gives_warning_witness :
  exists w',
    set_lora_scale Sample.rt half Sample.bare
    = (Ok "⚠️ Scale set to 0.50 (no modules found)", w') /\
    modules_of w' = modules_of Sample.bare /\
    lora_scale (self w') = half.
Proof.
  apply (no_adapter_layer_gives_warning Sample.rt half Sample.bare
           Sample.base); try reflexivity.
  intros e. discriminate.
Defined.

(** ** Whitespace around the path *)

Ltac bool_to_prop H :=
  repeat first
    [ rewrite orb_true_iff in H | rewrite andb_true_iff in H
    | rewrite Nat.eqb_eq in H | rewrite Nat.leb_le in H
    | rewrite Nat.ltb_lt in H ].

Lemma isspace2_continuation c d :
  starts_character d = true -> PyStr.isspace2 c d = false.
Proof.
  unfold starts_character, PyStr.isspace2. intros Hd.
  apply not_true_is_false. intros H.
  bool_to_prop Hd. bool_to_prop H. lia.
Qed.

Lemma isspace3_continuation c d e :
  starts_character d = true \/ starts_character e = true ->
  PyStr.isspace3 c d e = false.
Proof.
  unfold starts_character, PyStr.isspace3. intros Hd.
  apply not_true_is_false. intros H.
  bool_to_prop Hd. bool_to_prop H. lia.
Qed.

Lemma whitespace_isspace t : In t PyStr.whitespace -> PyStr.isspace t = true.
Proof.
  unfold PyStr.whitespace. simpl.
  intros H. repeat (destruct H as [<- | H]; [vm_compute; reflexivity | ]).
  destruct H.
Qed.

Lemma whitespace_at_character t :
  In t PyStr.whitespace -> at_character t = true /\ t <> "".
Proof.
  unfold PyStr.whitespace. simpl.
  intros H.
  repeat (destruct H as [<- | H];
          [split; [vm_compute; reflexivity | discriminate] | ]).
  destruct H.
Qed.

Lemma lstrip_whitespace t s :
  In t PyStr.whitespace -> PyStr.lstrip (t ++ s) = PyStr.lstrip s.
Proof.
  unfold PyStr.whitespace. simpl.
  intros H. repeat (destruct H as [<- | H]; [reflexivity | ]).
  destruct H.
Qed.

Lemma rstrip_whitespace_only t :
  In t PyStr.whitespace -> PyStr.rstrip t = "".
Proof.
  unfold PyStr.whitespace. simpl.
  intros H. repeat (destruct H as [<- | H]; [vm_compute; reflexivity | ]).
  destruct H.
Qed.

Lemma rstrip_whitespace s t :
  In t PyStr.whitespace -> PyStr.rstrip (s ++ t) = PyStr.rstrip s.
Proof.
  intros Ht. induction s as [ | c r IH]; simpl.
  - now apply rstrip_whitespace_only.
  - now rewrite IH.
Qed.

(** Stripping on the left does not look past the end of a string into
    what follows, when that starts a character. *)
Lemma lstrip_app_bounded n p q :
  String.length p <= n -> at_character q = true ->
  PyStr.lstrip (p ++ q)
  = match PyStr.lstrip p with
    | EmptyString => PyStr.lstrip q
    | kept => kept ++ q
    end.
Proof.
  revert p. induction n as [ | n IH]; intros p Hlen Hq.
  - destruct p; [reflexivity | simpl in Hlen; lia].
  - destruct p as [ | c r1]; [reflexivity | ].
    simpl in Hlen. cbn [PyStr.lstrip append].
    destruct (PyStr.isspace1 c) eqn:H1; [apply IH; [lia | exact Hq] | ].
    destruct r1 as [ | d r2]; cbn [append].
    + destruct q as [ | d q]; [reflexivity | ]. simpl in Hq.
      rewrite (isspace2_continuation c d Hq).
      destruct q as [ | e q]; [reflexivity | ].
      now rewrite (isspace3_continuation c d e (or_introl Hq)).
    + simpl in Hlen.
      destruct (PyStr.isspace2 c d) eqn:H2; [apply IH; [lia | exact Hq] | ].
      destruct r2 as [ | e r3]; cbn [append].
      * destruct q as [ | e q]; [reflexivity | ]. simpl in Hq.
        now rewrite (isspace3_continuation c d e (or_intror Hq)).
      * simpl in Hlen.
        destruct (PyStr.isspace3 c d e) eqn:H3;
          [apply IH; [lia | exact Hq] | reflexivity].
Qed.

Lemma concat_whitespace_at_character blanks :
  Forall (fun t => In t PyStr.whitespace) blanks ->
  at_character (String.concat "" blanks) = true.
Proof.
  intros H. destruct H as [ | t rest Ht Hrest]; [reflexivity | ].
  destruct (whitespace_at_character t Ht) as [Hc Hne].
  destruct t as [ | c t]; [congruence | ].
  destruct rest; exact Hc.
Qed.

Lemma lstrip_concat_whitespace blanks s :
  Forall (fun t => In t PyStr.whitespace) blanks ->
  PyStr.lstrip (String.concat "" blanks ++ s) = PyStr.lstrip s.
Proof.
  induction 1 as [ | t rest Ht Hrest IH]; [reflexivity | ].
  assert (E : String.concat "" (t :: rest) = t ++ String.concat "" rest).
  { destruct rest; simpl; [ | reflexivity].
    clear. induction t; simpl; congruence. }
  rewrite E.
  assert (A : forall a b c : string, (a ++ b) ++ c = a ++ (b ++ c))
    by (clear; induction a; simpl; congruence).
  rewrite A, (lstrip_whitespace t _ Ht). exact IH.
Qed.

Lemma rstrip_concat_whitespace blanks s :
  Forall (fun t => In t PyStr.whitespace) blanks ->
  PyStr.rstrip (s ++ String.concat "" blanks) = PyStr.rstrip s.
Proof.
  intros H. revert s. induction H as [ | t rest Ht Hrest IH]; intros s.
  - simpl. f_equal. clear. induction s; simpl; congruence.
  - assert (E : String.concat "" (t :: rest) = t ++ String.concat "" rest).
    { destruct rest; simpl; [ | reflexivity].
      clear. induction t; simpl; congruence. }
    rewrite E.
    assert (A : forall a b c : string, (a ++ b) ++ c = a ++ (b ++ c))
      by (clear; induction a; simpl; congruence).
    rewrite <- A, IH. now apply rstrip_whitespace.
Qed.

(** Whitespace around a string does not change what [strip()] gives. *)
Lemma strip_surrounded before after s :
  Forall (fun t => In t PyStr.whitespace) before ->
  Forall (fun t => In t PyStr.whitespace) after ->
  PyStr.strip (String.concat "" before ++ s ++ String.concat "" after)
  = PyStr.strip s.
Proof.
  intros Hb Ha. unfold PyStr.strip.
  rewrite (lstrip_concat_whitespace before _ Hb).
  rewrite (lstrip_app_bounded (String.length s) s _ (le_n _)
             (concat_whitespace_at_character after Ha)).
  destruct (PyStr.lstrip s) as [ | c kept] eqn:Hs.
  - pose proof (lstrip_concat_whitespace after "" Ha) as H.
    assert (E : forall a : string, a ++ "" = a)
      by (clear; induction a; simpl; congruence).
    rewrite E in H. rewrite H. reflexivity.
  - now apply rstrip_concat_whitespace.
Qed.

Ltac in_table :=
  unfold PyStr.whitespace; cbn [map app PyStr.bytes fold_right In];
  repeat first [left; reflexivity | right].

Ltac pin c :=
  let n := fresh "n" in
  let E := fresh "E" in
  pose proof (ascii_nat_embedding c) as E;
  set (n := nat_of_ascii c) in *; clearbody n; subst c.

(** The bytewise tests recognise the characters of the table and no
    other. *)
Lemma isspace_whitespace t : PyStr.isspace t = true -> In t PyStr.whitespace.
Proof.
  destruct t as [ | c [ | d [ | e [ | ? ?]]]]; simpl; try discriminate.
  - unfold PyStr.isspace1. pin c. intros H. bool_to_prop H.
    assert (Hn : n = 9 \/ n = 10 \/ n = 11 \/ n = 12 \/ n = 13 \/ n = 28 \/
                 n = 29 \/ n = 30 \/ n = 31 \/ n = 32) by lia.
    repeat (destruct Hn as [-> | Hn]; [in_table | ]). subst n. in_table.
  - unfold PyStr.isspace2. pin c. pin d. intros H. bool_to_prop H.
    assert (Hn : n = 194) by lia.
    assert (Hm : n0 = 133 \/ n0 = 160) by lia.
    subst n. destruct Hm as [-> | ->]; in_table.
  - unfold PyStr.isspace3. pin c. pin d. pin e. intros H. bool_to_prop H.
    assert (Hk : n1 = 128 \/ n1 = 129 \/ n1 = 130 \/ n1 = 131 \/ n1 = 132 \/
                 n1 = 133 \/ n1 = 134 \/ n1 = 135 \/ n1 = 136 \/ n1 = 137 \/
                 n1 = 138 \/ n1 = 159 \/ n1 = 168 \/ n1 = 169 \/ n1 = 175)
      by lia.
    assert (Hn : n = 225 \/ n = 226 \/ n = 227) by lia.
    assert (Hm : n0 = 128 \/ n0 = 129 \/ n0 = 154) by lia.
    destruct Hn as [-> | [-> | ->]]; destruct Hm as [-> | [-> | ->]];
      try (exfalso; lia);
      repeat (destruct Hk as [-> | Hk]; [try (exfalso; lia); in_table | ]);
      subst; try (exfalso; lia); in_table.
Qed.

(** X23. [load_lora] does not see whitespace around its path: with any
    characters of [str.isspace()] put before and after a path, ASCII
    blanks as well as the no-break space and the other whitespace of
    Unicode, the call returns the same string, leaves the same session
    and makes the same calls as with the bare path. *)
Theorem load_lora_ignores_surrounding_blanks rt before after lora_path w :
  Forall (fun t => In t PyStr.whitespace) before ->
  Forall (fun t => In t PyStr.whitespace) after ->
  load_lora rt
    (String.concat "" before ++ lora_path ++ String.concat "" after) w
  = load_lora rt lora_path w.
Proof.
  intros Hb Ha. unfold load_lora.
  rewrite (path_given lora_path), path_given.
  rewrite (strip_surrounded before after lora_path Hb Ha). reflexivity.
Qed.

(** A space and a tab before, a no-break space and a line feed after. *)
Lemma load_lora_ignores_surrounding_blanks_witness :
  load_lora Sample.rt
    (PyStr.bytes [32; 9] ++ "/loras/a" ++ PyStr.bytes [194; 160; 10])
    Sample.fresh
  = load_lora Sample.rt "/loras/a" Sample.fresh.
Proof.
  apply (load_lora_ignores_surrounding_blanks Sample.rt
           [PyStr.bytes [32]; PyStr.bytes [9]]
           [PyStr.bytes [194; 160]; PyStr.bytes [10]]
           "/loras/a" Sample.fresh);
    repeat (apply Forall_cons; [in_table | ]); apply Forall_nil.
Defined.

(** ** What the method fallback leaves alone *)

(** X24. The second loop of [set_lora_scale] keeps the list of modules
    and their names and calls no method on a module whose class is not
    recognised as a LoRA layer: such a module comes back unchanged,
    whatever the runtime's methods would do to it. *)
Theorem fallback_leaves_others_alone rt x adapters mods c :
  map fst (fst (scale_modules_fallback rt x adapters mods c)) = map fst mods /\
  forall i name m,
    nth_error mods i = Some (name, m) ->
    is_probably_lora_layer m = false ->
    nth_error (fst (scale_modules_fallback rt x adapters mods c)) i
    = Some (name, m).
Proof.
  revert c. induction mods as [ | [name0 m0] rest IH]; intros c; simpl.
  - split; [reflexivity | ]. intros [ | i]; discriminate.
  - destruct (scale_module_fallback rt x adapters m0) as [m0' b] eqn:Hhead.
    destruct (IH (if b then S c else c)) as [IHnames IHnth].
    destruct (scale_modules_fallback rt x adapters rest _) as [rest' n].
    simpl in *. split; [now rewrite IHnames | ].
    intros [ | i] name m Hi Hm; simpl in *.
    + inversion Hi; subst. unfold scale_module_fallback in Hhead.
      rewrite Hm in Hhead. simpl in Hhead. now inversion Hhead.
    + now apply IHnth.
Qed.

Lemma fallback_leaves_others_alone_witness :
  nth_error
    (fst (scale_modules_fallback Sample.rt half ["default"]
            (named_modules Sample.adapted) 0)) 1
  = Some ("base_model.model.layers.0.attn.lora_A",
          Sample.linear (Some (SNum (NFloat Sample.two)))).
Proof.
  apply (proj2 (fallback_leaves_others_alone Sample.rt half ["default"]
                  (named_modules Sample.adapted) 0) 1);
    reflexivity.
Defined.
